(** * OOP_pump.py: the [Pump] class, embedded and verified

    The Python class keeps all of its results as attributes of [self]; its
    three methods ([__init__], [power], [off_design]) assign them one after
    the other and call the CoolProp property backend in between.  The
    embedding keeps exactly that shape:

    - a Python [float] is an IEEE-754 binary64 number, here Rocq's primitive
      [float] (same format, round to nearest even);
    - the instance dictionary [self.__dict__] is a [gmap string value];
    - a method is a computation in a state-and-exception monad in which the
      state survives an exception, as the attributes of a Python object do;
    - [CP.PropsSI] and the C library's [pow] (behind [**]) are not part of
      the repository and are parameters of the development;
    - the numeric arguments of the methods are floats and [medium] is a
      string, as the class documents them. *)

From Stdlib Require Import Floats ZArith Lia Bool.
From stdpp Require Import gmap strings.

Set Warnings "-inexact-float".

Local Open Scope string_scope.

(** ** Values, exceptions, objects *)

(** What an attribute of a pump can hold: a number or the fluid name. *)
Inductive value :=
  | VFloat (x : float)
  | VStr (s : string).

(** The exceptions the three methods can let through. [ValueError] is what
    [CP.PropsSI] raises when it cannot resolve a state point. *)
Inductive exn :=
  | AttributeError (attr : string)
  | TypeError
  | ZeroDivisionError
  | OverflowError
  | ValueError.

(** [self.__dict__]. *)
Abbreviation obj := (gmap string value).

(** A statement or expression acting on [self]: it returns the attributes as
    they are when it stops, together with its value or the exception. *)
Definition M (A : Type) : Type := obj → obj * (exn + A).

Global Instance M_ret : MRet M := λ A a σ, (σ, inr a).

Global Instance M_bind : MBind M := λ A B k m σ,
  match m σ with
  | (σ', inr a) => k a σ'
  | (σ', inl e) => (σ', inl e)
  end.

Definition raise {A} (e : exn) : M A := λ σ, (σ, inl e).

Definition lift {A} (r : exn + A) : M A := λ σ, (σ, r).

(** [self.name] read, and [self.name = v]. *)
Definition getattr (name : string) : M value := λ σ,
  match σ !! name with
  | Some v => (σ, inr v)
  | None => (σ, inl (AttributeError name))
  end.

Definition setattr (name : string) (v : value) : M unit := λ σ,
  (<[name := v]> σ, inr tt).

Definition as_float (v : value) : exn + float :=
  match v with VFloat x => inr x | VStr _ => inl TypeError end.

Definition as_str (v : value) : exn + string :=
  match v with VStr s => inr s | VFloat _ => inl TypeError end.

(** An attribute used as a number, and one used as the fluid name. A value
    of the other kind makes the statement that uses it raise [TypeError];
    with arguments of the documented types this never happens. *)
Definition getfloat (name : string) : M float :=
  v ← getattr name; lift (as_float v).

Definition getstr (name : string) : M string :=
  v ← getattr name; lift (as_str v).

(** ** Python's float arithmetic

    [+], [-] and [*] are the IEEE operations and never raise; [/] raises
    [ZeroDivisionError] on a zero divisor of either sign. *)
Definition fdiv (x y : float) : exn + float :=
  if (y =? 0)%float then inl ZeroDivisionError else inr (x / y)%float.

Section Pump.

(** [CP.PropsSI(output, name1, value1, name2, value2, fluid)]; [None] is
    the backend's exception. *)
Variable PropsSI : string → string → float → string → float → string → option float.

(** [x ** n] for a float [x] and an integer literal [n]; [None] is the
    [OverflowError] of a result out of range. *)
Variable float_pow : float → Z → option float.

Definition CP_PropsSI (out n1 : string) (v1 : float) (n2 : string) (v2 : float)
    (fluid : string) : M float :=
  match PropsSI out n1 v1 n2 v2 fluid with
  | Some x => mret x
  | None => raise ValueError
  end.

Definition pow (x : float) (n : Z) : M float :=
  match float_pow x n with
  | Some y => mret y
  | None => raise OverflowError
  end.

(** *** [Pump.__init__] (lines 18-50) *)
Definition __init__ (T_in p_in p_out mf : float) (medium : string) : M unit :=
  setattr "T_in" (VFloat T_in);;
  setattr "p_in" (VFloat p_in);;
  setattr "p_out" (VFloat p_out);;
  setattr "mf" (VFloat mf);;
  setattr "medium" (VStr medium);;
  (* self.h_in = CP.PropsSI('Hmass','T',self.T_in+273.15,'P',self.p_in*1000,self.medium)/1000 *)
  t ← getfloat "T_in"; p ← getfloat "p_in"; md ← getstr "medium";
  x ← CP_PropsSI "Hmass" "T" (t + 273.15) "P" (p * 1000) md;
  h_in ← lift (fdiv x 1000);
  setattr "h_in" (VFloat h_in);;
  (* self.s_in = CP.PropsSI('Smass','T',self.T_in+273.15,'P',self.p_in*1000,self.medium)/1000 *)
  t ← getfloat "T_in"; p ← getfloat "p_in"; md ← getstr "medium";
  x ← CP_PropsSI "Smass" "T" (t + 273.15) "P" (p * 1000) md;
  s_in ← lift (fdiv x 1000);
  setattr "s_in" (VFloat s_in);;
  (* self.s_out_s = self.s_in *)
  s ← getattr "s_in";
  setattr "s_out_s" s;;
  (* self.h_out_s = CP.PropsSI('Hmass','Smass',self.s_out_s*1000,'P',self.p_out*1000,self.medium)/1000 *)
  s ← getfloat "s_out_s"; p ← getfloat "p_out"; md ← getstr "medium";
  x ← CP_PropsSI "Hmass" "Smass" (s * 1000) "P" (p * 1000) md;
  h_out_s ← lift (fdiv x 1000);
  setattr "h_out_s" (VFloat h_out_s);;
  (* self.T_out_s = CP.PropsSI('T','Smass',self.s_out_s*1000,'P',self.p_out*1000,self.medium)-273.15 *)
  s ← getfloat "s_out_s"; p ← getfloat "p_out"; md ← getstr "medium";
  x ← CP_PropsSI "T" "Smass" (s * 1000) "P" (p * 1000) md;
  setattr "T_out_s" (VFloat (x - 273.15));;
  (* self.rho_in = CP.PropsSI('Dmass','Hmass',self.h_in*1000,'P',self.p_in*1000,self.medium) *)
  h ← getfloat "h_in"; p ← getfloat "p_in"; md ← getstr "medium";
  x ← CP_PropsSI "Dmass" "Hmass" (h * 1000) "P" (p * 1000) md;
  setattr "rho_in" (VFloat x);;
  (* self.V_in = mf/self.rho_in *)
  rho ← getfloat "rho_in";
  v ← lift (fdiv mf rho);
  setattr "V_in" (VFloat v).

(** [Pump(T_in, p_in, p_out, mf, medium)]: [__init__] runs on a fresh
    object; when it raises, the caller never receives the object. *)
Definition Pump (T_in p_in p_out mf : float) (medium : string) : exn + obj :=
  match __init__ T_in p_in p_out mf medium ∅ with
  | (σ, inr _) => inr σ
  | (_, inl e) => inl e
  end.

(** *** [Pump.power] (lines 52-82) *)
Definition power (eta_iP : float) : M unit :=
  setattr "eta_iP" (VFloat eta_iP);;
  (* self.h_out = self.h_in+(self.h_out_s-self.h_in)/self.eta_iP *)
  h_in ← getfloat "h_in"; h_out_s ← getfloat "h_out_s"; h_in' ← getfloat "h_in";
  eta ← getfloat "eta_iP";
  q ← lift (fdiv (h_out_s - h_in') eta);
  setattr "h_out" (VFloat (h_in + q));;
  (* self.T_out = CP.PropsSI('T','Hmass',self.h_out*1000,'P',self.p_out*1000,self.medium)-273.15 *)
  h ← getfloat "h_out"; p ← getfloat "p_out"; md ← getstr "medium";
  x ← CP_PropsSI "T" "Hmass" (h * 1000) "P" (p * 1000) md;
  setattr "T_out" (VFloat (x - 273.15));;
  (* self.s_out = CP.PropsSI('Smass','T',self.T_out+273.15,'P',self.p_out*1000,self.medium)/1000 *)
  t ← getfloat "T_out"; p ← getfloat "p_out"; md ← getstr "medium";
  x ← CP_PropsSI "Smass" "T" (t + 273.15) "P" (p * 1000) md;
  s_out ← lift (fdiv x 1000);
  setattr "s_out" (VFloat s_out);;
  (* self.N_iP = self.mf*(self.h_out-self.h_in) *)
  mf ← getfloat "mf"; h_out ← getfloat "h_out"; h_in ← getfloat "h_in";
  setattr "N_iP" (VFloat (mf * (h_out - h_in))).

(** *** [Pump.off_design] (lines 84-111) *)
Definition off_design (T_in_off p_in_off p_out_off mf_off : float) : M unit :=
  setattr "T_in_off" (VFloat T_in_off);;
  setattr "p_in_off" (VFloat p_in_off);;
  setattr "p_out_off" (VFloat p_out_off);;
  setattr "mf_off" (VFloat mf_off);;
  (* self.h_in_off = CP.PropsSI('Hmass','T',self.T_in_off+273.15,'P',self.p_in_off*1000,self.medium)/1000 *)
  t ← getfloat "T_in_off"; p ← getfloat "p_in_off"; md ← getstr "medium";
  x ← CP_PropsSI "Hmass" "T" (t + 273.15) "P" (p * 1000) md;
  h_in_off ← lift (fdiv x 1000);
  setattr "h_in_off" (VFloat h_in_off);;
  (* self.s_in_off = CP.PropsSI('Smass','T',self.T_in_off+273.15,'P',self.p_in_off*1000,self.medium)/1000 *)
  t ← getfloat "T_in_off"; p ← getfloat "p_in_off"; md ← getstr "medium";
  x ← CP_PropsSI "Smass" "T" (t + 273.15) "P" (p * 1000) md;
  s_in_off ← lift (fdiv x 1000);
  setattr "s_in_off" (VFloat s_in_off);;
  (* self.s_out_s_off = self.s_in_off *)
  s ← getattr "s_in_off";
  setattr "s_out_s_off" s;;
  (* self.h_out_s_off = CP.PropsSI('Hmass','Smass',self.s_out_s_off*1000,'P',self.p_out_off*1000,self.medium)/1000 *)
  s ← getfloat "s_out_s_off"; p ← getfloat "p_out_off"; md ← getstr "medium";
  x ← CP_PropsSI "Hmass" "Smass" (s * 1000) "P" (p * 1000) md;
  h_out_s_off ← lift (fdiv x 1000);
  setattr "h_out_s_off" (VFloat h_out_s_off);;
  (* self.T_out_s_off = CP.PropsSI('T','Smass',self.s_out_s_off*1000,'P',self.p_out_off*1000,self.medium)-273.15 *)
  s ← getfloat "s_out_s_off"; p ← getfloat "p_out_off"; md ← getstr "medium";
  x ← CP_PropsSI "T" "Smass" (s * 1000) "P" (p * 1000) md;
  setattr "T_out_s_off" (VFloat (x - 273.15));;
  (* self.rho_in_off = CP.PropsSI('Dmass','Hmass',self.h_in_off*1000,'P',p_in_off*1000,self.medium) *)
  h ← getfloat "h_in_off"; md ← getstr "medium";
  x ← CP_PropsSI "Dmass" "Hmass" (h * 1000) "P" (p_in_off * 1000) md;
  setattr "rho_in_off" (VFloat x);;
  (* self.V_in_off = mf_off/self.rho_in_off *)
  rho ← getfloat "rho_in_off";
  v ← lift (fdiv mf_off rho);
  setattr "V_in_off" (VFloat v);;
  (* self.eta_iP_off = (-0.168*(self.V_in/self.V_in_off)**3
                        -0.0336*(self.V_in/self.V_in_off)**2
                        +0.6317*(self.V_in/self.V_in_off)+0.5699)*self.eta_iP *)
  v ← getfloat "V_in"; v_off ← getfloat "V_in_off"; ra ← lift (fdiv v v_off);
  r3 ← pow ra 3;
  v ← getfloat "V_in"; v_off ← getfloat "V_in_off"; rb ← lift (fdiv v v_off);
  r2 ← pow rb 2;
  v ← getfloat "V_in"; v_off ← getfloat "V_in_off"; rc ← lift (fdiv v v_off);
  eta ← getfloat "eta_iP";
  setattr "eta_iP_off"
    (VFloat ((-0.168 * r3 - 0.0336 * r2 + 0.6317 * rc + 0.5699) * eta));;
  (* self.h_out_off = self.h_in_off+(self.h_out_s_off-self.h_in_off)/self.eta_iP_off *)
  h_in ← getfloat "h_in_off"; h_out_s ← getfloat "h_out_s_off"; h_in' ← getfloat "h_in_off";
  eta_off ← getfloat "eta_iP_off";
  q ← lift (fdiv (h_out_s - h_in') eta_off);
  setattr "h_out_off" (VFloat (h_in + q));;
  (* self.T_out_off = CP.PropsSI('T','Hmass',self.h_out_off*1000,'P',self.p_out_off*1000,self.medium)-273.15 *)
  h ← getfloat "h_out_off"; p ← getfloat "p_out_off"; md ← getstr "medium";
  x ← CP_PropsSI "T" "Hmass" (h * 1000) "P" (p * 1000) md;
  setattr "T_out_off" (VFloat (x - 273.15));;
  (* self.s_out_off = CP.PropsSI('Smass','T',self.T_out_off+273.15,'P',self.p_out_off*1000,self.medium)/1000 *)
  t ← getfloat "T_out_off"; p ← getfloat "p_out_off"; md ← getstr "medium";
  x ← CP_PropsSI "Smass" "T" (t + 273.15) "P" (p * 1000) md;
  s_out_off ← lift (fdiv x 1000);
  setattr "s_out_off" (VFloat s_out_off);;
  (* self.N_iP_off = self.mf_off*(self.h_out_off-self.h_in_off) *)
  mf ← getfloat "mf_off"; h_out ← getfloat "h_out_off"; h_in ← getfloat "h_in_off";
  setattr "N_iP_off" (VFloat (mf * (h_out - h_in))).

End Pump.

(** ** Attribute names *)

(** The attributes [off_design] assigns, in order. *)
Definition off_design_attrs : list string :=
  [ "T_in_off"; "p_in_off"; "p_out_off"; "mf_off"; "h_in_off"; "s_in_off";
    "s_out_s_off"; "h_out_s_off"; "T_out_s_off"; "rho_in_off"; "V_in_off";
    "eta_iP_off"; "h_out_off"; "T_out_off"; "s_out_off"; "N_iP_off" ].

(** The attributes [power] assigns, in order. *)
Definition power_attrs : list string :=
  [ "eta_iP"; "h_out"; "T_out"; "s_out"; "N_iP" ].

(** The design-point attributes: those of [__init__] and of [power]. *)
Definition design_attrs : list string :=
  [ "T_in"; "p_in"; "p_out"; "mf"; "medium"; "h_in"; "s_in"; "s_out_s";
    "h_out_s"; "T_out_s"; "rho_in"; "V_in" ] ++ power_attrs.

(** The attributes [power] reads without having assigned them, and those
    [off_design] reads without having assigned them. *)
Definition power_inputs : list string :=
  [ "h_in"; "h_out_s"; "p_out"; "medium"; "mf" ].

Definition off_design_inputs : list string :=
  [ "medium"; "V_in"; "eta_iP" ].

(** ** A property backend with fixed answers, and a reference [**]

    The backend answers by the requested property and the first state
    variable, for one fluid, with the six values given (SI units); any other
    request raises. [pow_mul] is [**] by repeated multiplication, used only
    at bases whose powers are exact or out of range. *)
Definition golden (h_TP s_TP h_SP t_SP d_HP t_HP : float)
    (out n1 : string) (v1 : float) (n2 : string) (v2 : float)
    (fluid : string) : option float :=
  if negb (String.eqb fluid "Water") then None
  else if String.eqb out "Hmass" && String.eqb n1 "T" then Some h_TP
  else if String.eqb out "Smass" && String.eqb n1 "T" then Some s_TP
  else if String.eqb out "Hmass" && String.eqb n1 "Smass" then Some h_SP
  else if String.eqb out "T" && String.eqb n1 "Smass" then Some t_SP
  else if String.eqb out "Dmass" && String.eqb n1 "Hmass" then Some d_HP
  else if String.eqb out "T" && String.eqb n1 "Hmass" then Some t_HP
  else None.

(** Water at 25 C and 100 kPa, pumped to 500 kPa. *)
Definition water25 := golden 104920 367.2 105320 298.16 997 298.2.

(** Water just above freezing, pumped from 100 kPa to 800 kPa: the inlet
    enthalpy is close to the zero of the enthalpy scale. *)
Definition water0 := golden 200 0.7 900 273.2 1000 273.2.

(** Outlet pressure equal to the inlet pressure: the isentropic outlet
    state is the inlet state. *)
Definition water_flat := golden 104920 367.2 104920 298.15 997 298.15.

(** A backend that answers a zero density. *)
Definition water_void := golden 104920 367.2 105320 298.16 0 298.2.

(** [water25], except that the outlet temperature of lines 80 and 109 is
    not answered. *)
Definition water25_no_outlet
    (out n1 : string) (v1 : float) (n2 : string) (v2 : float)
    (fluid : string) : option float :=
  if String.eqb out "T" && String.eqb n1 "Hmass" then None
  else water25 out n1 v1 n2 v2 fluid.

Definition pow_mul (x : float) (n : Z) : option float :=
  let y := Z.iter n (λ a, a * x)%float 1%float in
  if is_infinity y && negb (is_infinity x) then None else Some y.

(** The pump of the first scenario, after construction and after
    [power(0.75)]. *)
Definition pump25 : obj := (__init__ water25 25 100 500 1 "Water" ∅).1.
Definition pump25_powered : obj := (power water25 0.75 pump25).1.

Definition pump0 : obj := (__init__ water0 0.05 100 800 1 "Water" ∅).1.

(** A pump with no pressure rise and an infinite mass flow. *)
Definition pump_inf : obj :=
  (__init__ water_flat 25 100 100 infinity "Water" ∅).1.

(** ** Specifications of runs *)

(** [wp m σ Q]: the run of [m] from [σ] ends in a state and an outcome
    that satisfy [Q]. Every run ends, so this is total correctness. *)
Definition wp {A} (m : M A) (σ : obj) (Q : obj → exn + A → Prop) : Prop :=
  Q (m σ).1 (m σ).2.

(** [preserves S m]: whatever its outcome, [m] leaves every attribute outside
    [S] as it found it. *)
Definition preserves {A} (S : list string) (m : M A) : Prop :=
  ∀ σ name, name ∉ S → (m σ).1 !! name = σ !! name.

(** Two objects that hold the same under every name of [S]. *)
Definition agree_on (S : list string) (σ1 σ2 : obj) : Prop :=
  ∀ name, name ∈ S → σ1 !! name = σ2 !! name.

(** [assign l σ]: the assignments listed in [l], the last of the list
    first, made on [σ]. *)
Definition assign (l : list (string * value)) (σ : obj) : obj :=
  foldr (λ kv σ', <[kv.1 := kv.2]> σ') σ l.

(** [sim S S' m]: run from two objects that agree on [S], [m] ends with the
    same outcome after the same assignments; when it ends normally the two
    objects agree on [S']. *)
Definition sim {A} (S S' : list string) (m : M A) : Prop :=
  ∀ σ1 σ2, agree_on S σ1 σ2 →
    (m σ1).2 = (m σ2).2 ∧
    (∃ l, (m σ1).1 = assign l σ1 ∧ (m σ2).1 = assign l σ2) ∧
    (∀ a, (m σ1).2 = inr a → agree_on S' (m σ1).1 (m σ2).1).

(** ** Binary64 arithmetic

    Facts about the IEEE operations that the claims on signs and on exact
    results need, proved from the specification of the primitive floats
    ([SpecFloat], through the axioms of [FloatAxioms]): how an exact
    mantissa is rounded, that rounding is monotone against representable
    numbers, the sign of sums, differences, products and quotients, and
    three exact identities. *)

Module Binary64.

Local Open Scope Z_scope.

(** [shifted M n mrs]: the record [mrs] is the non-negative integer [M]
    shifted right by [n] places: its mantissa is the quotient, and its two
    flags are both clear exactly when nothing was shifted out. *)
Definition shifted (M n : Z) (mrs : shr_record) : Prop :=
  shr_m mrs = M / 2 ^ n /\
  (orb (shr_r mrs) (shr_s mrs) = false <-> M mod 2 ^ n = 0).

Abbreviation fexp64 := (fexp prec emax).
Abbreviation round64 := (binary_round_aux prec emax).

(** The value [round64] returns on an exact positive mantissa that has at
    least as many digits as the format keeps: the mantissa is shifted down
    to the exponent [t] of the format, rounded to [q'], and renormalised
    when the rounding carried into a 54th digit. *)
Definition rounded (s : bool) (q' t : Z) : spec_float :=
  if q' =? 0 then S754_zero s
  else if q' =? 2 ^ 53 then
    (if t + 1 <=? 971 then S754_finite s (2 ^ 52)%positive (t + 1)
     else S754_infinity s)
  else if t <=? 971 then S754_finite s (Z.to_pos q') t
  else S754_infinity s.

(** [above s m e R]: [R] has sign [s] and magnitude at least that of the
    canonical [(m, e)]; [below] is the converse. *)
Definition above (s : bool) (m : positive) (e : Z) (R : spec_float) : Prop :=
  match R with
  | S754_infinity s' => s' = s
  | S754_finite s' m' e' =>
      s' = s /\ (e < e' \/ (e' = e /\ Zpos m <= Zpos m'))
  | _ => False
  end.

Definition below (s : bool) (m : positive) (e : Z) (R : spec_float) : Prop :=
  match R with
  | S754_zero s' => s' = s
  | S754_finite s' m' e' =>
      s' = s /\ (e' < e \/ (e' = e /\ Zpos m' <= Zpos m))
  | _ => False
  end.

Definition has_sign (s : bool) (R : spec_float) : Prop :=
  match R with
  | S754_zero s' | S754_infinity s' | S754_finite s' _ _ => s' = s
  | S754_nan => False
  end.

Abbreviation bround64 := (binary_round prec emax).

Definition fin (x : spec_float) : Prop :=
  match x with S754_zero _ | S754_finite _ _ _ => True | _ => False end.

Definition nonneg (x : spec_float) : Prop :=
  match x with
  | S754_zero _ | S754_finite false _ _ | S754_infinity false => True
  | _ => False
  end.

Definition positive_finite (x : spec_float) : Prop :=
  match x with S754_finite false _ _ => True | _ => False end.

Abbreviation SFone := (S754_finite false 4503599627370496 (-52)).


Lemma pow2_pos n : 0 <= n -> 0 < 2 ^ n.
Proof. intros. apply Z.pow_pos_nonneg; lia. Qed.

Lemma pow2_succ n : 0 <= n -> 2 ^ (n + 1) = 2 * 2 ^ n.
Proof. intros. rewrite Z.pow_add_r by lia. lia. Qed.

Lemma pow2_le n m : 0 <= n <= m -> 2 ^ n <= 2 ^ m.
Proof. intros. apply Z.pow_le_mono_r; lia. Qed.

Lemma pow2_lt n m : 0 <= n < m -> 2 ^ n < 2 ^ m.
Proof. intros. apply Z.pow_lt_mono_r; lia. Qed.

(** *** Number of binary digits *)

Lemma digits2_pos_bounds m :
  2 ^ (Zpos (digits2_pos m) - 1) <= Zpos m < 2 ^ Zpos (digits2_pos m).
Proof.
  induction m as [p IH|p IH|]; simpl digits2_pos.
  - rewrite Pos2Z.inj_succ, Pos2Z.inj_xI.
    replace (Z.succ (Zpos (digits2_pos p)) - 1) with (Zpos (digits2_pos p) - 1 + 1) by lia.
    unfold Z.succ. rewrite !pow2_succ by lia. lia.
  - rewrite Pos2Z.inj_succ, Pos2Z.inj_xO.
    replace (Z.succ (Zpos (digits2_pos p)) - 1) with (Zpos (digits2_pos p) - 1 + 1) by lia.
    unfold Z.succ. rewrite !pow2_succ by lia. lia.
  - simpl. lia.
Qed.

Lemma digits2_pos_unique m d :
  2 ^ (d - 1) <= Zpos m < 2 ^ d -> Zpos (digits2_pos m) = d.
Proof.
  intros [Hl Hu]. pose proof (digits2_pos_bounds m) as [Bl Bu].
  assert (0 < d).
  { destruct (Z_lt_le_dec 0 d) as [|Hd]; [assumption|].
    destruct (Z.eq_dec d 0) as [->|]; [simpl in Hu; lia|].
    rewrite Z.pow_neg_r in Hu by lia. lia. }
  destruct (Z_lt_le_dec (Zpos (digits2_pos m)) d) as [Hlt|Hge].
  - assert (2 ^ Zpos (digits2_pos m) <= 2 ^ (d - 1)) by (apply pow2_le; lia). lia.
  - destruct (Z.eq_dec (Zpos (digits2_pos m)) d) as [|Hne]; [assumption|].
    assert (2 ^ d <= 2 ^ (Zpos (digits2_pos m) - 1)) by (apply pow2_le; lia). lia.
Qed.

Lemma digits2_pos_le m m' :
  (m <= m')%positive -> Zpos (digits2_pos m) <= Zpos (digits2_pos m').
Proof.
  intros Hle. pose proof (digits2_pos_bounds m) as [Bl Bu].
  pose proof (digits2_pos_bounds m') as [Bl' Bu'].
  destruct (Z_lt_le_dec (Zpos (digits2_pos m')) (Zpos (digits2_pos m))) as [Hlt|]; [|assumption].
  assert (2 ^ Zpos (digits2_pos m') <= 2 ^ (Zpos (digits2_pos m) - 1)) by (apply pow2_le; lia).
  lia.
Qed.

(** Digits of a positive integer given as a [Z]. *)
Lemma Zdigits2_bounds M :
  0 < M -> 2 ^ (Zdigits2 M - 1) <= M < 2 ^ Zdigits2 M.
Proof. destruct M as [|p|p]; try lia. intros _. apply digits2_pos_bounds. Qed.

Lemma Zdigits2_unique M d :
  2 ^ (d - 1) <= M < 2 ^ d -> 0 < M -> Zdigits2 M = d.
Proof. destruct M as [|p|p]; try lia. intros H _. apply digits2_pos_unique, H. Qed.

Lemma Zdigits2_pos M : 0 < M -> 0 < Zdigits2 M.
Proof. destruct M; simpl; lia. Qed.

Lemma Zdigits2_le M M' : 0 < M <= M' -> Zdigits2 M <= Zdigits2 M'.
Proof.
  destruct M as [|p|p], M' as [|p'|p']; try lia. intros [_ H].
  apply digits2_pos_le. exact H.
Qed.

Lemma Zdigits2_shift M k :
  0 < M -> 0 <= k -> Zdigits2 (M * 2 ^ k) = Zdigits2 M + k.
Proof.
  intros HM Hk. pose proof (Zdigits2_bounds M HM) as [Bl Bu].
  pose proof (Zdigits2_pos M HM). pose proof (pow2_pos k Hk).
  apply Zdigits2_unique; [|nia].
  replace (Zdigits2 M + k - 1) with (Zdigits2 M - 1 + k) by lia.
  rewrite !Z.pow_add_r by lia. nia.
Qed.

(** *** Shifting a mantissa right *)


Lemma shifted_0 M : shifted M 0 (Build_shr_record M false false).
Proof.
  split; simpl.
  - rewrite Z.div_1_r. reflexivity.
  - rewrite Z.mod_1_r. tauto.
Qed.

Lemma shr_1_m mrs :
  0 <= shr_m mrs -> shr_m (shr_1 mrs) = shr_m mrs / 2.
Proof.
  destruct mrs as [m r s]. cbn [shr_m]. intros Hm.
  destruct m as [|[p|p|]|p]; cbn [shr_1 shr_m]; try lia.
  - reflexivity.
  - rewrite Pos2Z.inj_xI. apply Z.div_unique with 1; lia.
  - rewrite Pos2Z.inj_xO. apply Z.div_unique with 0; lia.
  - reflexivity.
Qed.

Lemma shr_1_flags mrs :
  0 <= shr_m mrs ->
  orb (shr_r (shr_1 mrs)) (shr_s (shr_1 mrs)) =
  orb (Z.odd (shr_m mrs)) (orb (shr_r mrs) (shr_s mrs)).
Proof.
  destruct mrs as [m r s]. cbn [shr_m]. intros Hm.
  destruct m as [|[p|p|]|p]; cbn [shr_1 shr_m shr_r shr_s]; try lia; reflexivity.
Qed.

Lemma mod_pow2_succ M n :
  0 <= M -> 0 <= n ->
  (M mod 2 ^ (n + 1) = 0 <-> M mod 2 ^ n = 0 /\ Z.odd (M / 2 ^ n) = false).
Proof.
  intros HM Hn. pose proof (pow2_pos n Hn) as Hp.
  rewrite pow2_succ by lia.
  pose proof (Z.div_mod M (2 ^ n) ltac:(lia)) as Hdm.
  pose proof (Z.mod_pos_bound M (2 ^ n) Hp) as Hb.
  set (q := M / 2 ^ n) in *. set (r := M mod 2 ^ n) in *.
  pose proof (Zodd_bool_iff q) as Ho. pose proof (Zeven_odd_dec q) as Hd.
  split.
  - intros H0. apply Z.mod_divide in H0; [|lia]. destruct H0 as [c Hc].
    assert (Hk : r = 2 ^ n * (2 * c - q)) by lia.
    assert (2 * c - q = 0) by nia.
    assert (r = 0 /\ q = 2 * c) as [Hr Hq] by (split; nia).
    split; [exact Hr|]. rewrite Hq. rewrite Z.odd_mul. reflexivity.
  - intros [Hr Hq]. rewrite Hr in Hdm.
    assert (exists c, q = 2 * c) as [c Hc].
    { destruct (Z.Even_or_Odd q) as [[c Hc]|Hodd]; [exists c; exact Hc|].
      apply Z.odd_spec in Hodd. congruence. }
    apply Z.mod_divide; [lia|]. exists c. nia.
Qed.

Lemma shifted_1 M n mrs :
  0 <= M -> 0 <= n -> shifted M n mrs -> shifted M (n + 1) (shr_1 mrs).
Proof.
  intros HM Hn [Hm Hf]. pose proof (pow2_pos n Hn) as Hp.
  assert (Hm0 : 0 <= shr_m mrs) by (rewrite Hm; apply Z.div_pos; lia).
  split.
  - rewrite shr_1_m by assumption. rewrite Hm, pow2_succ by lia.
    rewrite Z.div_div by lia. f_equal. lia.
  - rewrite shr_1_flags by assumption. rewrite mod_pow2_succ by assumption.
    rewrite orb_false_iff, Hf, Hm. tauto.
Qed.

Lemma shifted_iter M p : forall n mrs,
  0 <= M -> 0 <= n -> shifted M n mrs ->
  shifted M (n + Zpos p) (SpecFloat.iter_pos shr_1 p mrs).
Proof.
  induction p as [p IH|p IH|]; intros n mrs HM Hn H; simpl.
  - replace (n + Zpos p~1) with (n + 1 + Zpos p + Zpos p) by lia.
    apply IH; [lia..|]. apply IH; [lia..|]. apply shifted_1; assumption.
  - replace (n + Zpos p~0) with (n + Zpos p + Zpos p) by lia.
    apply IH; [lia..|]. apply IH; assumption.
  - apply shifted_1; assumption.
Qed.

Lemma shr_nop mrs e n : n <= 0 -> shr mrs e n = (mrs, e).
Proof. destruct n; simpl; try reflexivity. lia. Qed.

(** What [shr] does to an exact non-negative mantissa. *)
Lemma shr_exact M e n :
  0 <= M ->
  let '(mrs, e') := shr (Build_shr_record M false false) e n in
  e' = e + Z.max n 0 /\ shifted M (Z.max n 0) mrs.
Proof.
  intros HM. unfold shr. destruct n as [|p|p].
  - split; [lia|]. apply shifted_0.
  - split; [lia|]. replace (Z.max (Zpos p) 0) with (0 + Zpos p) by lia.
    apply shifted_iter; [lia..|]. apply shifted_0.
  - split; [lia|]. apply shifted_0.
Qed.

(** *** Rounding an exact positive mantissa *)


Lemma fexp64_eq e : fexp64 e = Z.max (e - 53) (-1074).
Proof. reflexivity. Qed.

Lemma rne_bounds q l :
  round_nearest_even q l = q \/
  (round_nearest_even q l = q + 1 /\ l <> loc_Exact).
Proof.
  destruct l as [|[| |]]; simpl.
  - left; reflexivity.
  - destruct (Z.even q); [left; reflexivity | right; split; [reflexivity | discriminate]].
  - left; reflexivity.
  - right. split; [reflexivity | discriminate].
Qed.

Lemma loc_exact_flags mrs :
  loc_of_shr_record mrs = loc_Exact <-> orb (shr_r mrs) (shr_s mrs) = false.
Proof. destruct mrs as [m [|] [|]]; simpl; split; congruence. Qed.

Lemma div_pow2_bounds M a b n :
  0 <= n <= a -> a <= b -> 2 ^ a <= M < 2 ^ b ->
  2 ^ (a - n) <= M / 2 ^ n < 2 ^ (b - n).
Proof.
  intros Hn Hab [Hl Hu]. pose proof (pow2_pos n ltac:(lia)) as Hp.
  replace a with (a - n + n) in Hl by lia.
  replace b with (b - n + n) in Hu by lia.
  rewrite Z.pow_add_r in Hl, Hu by lia.
  split.
  - apply Z.div_le_lower_bound; lia.
  - apply Z.div_lt_upper_bound; lia.
Qed.


Lemma round64_exact s M e :
  0 < M ->
  let t := fexp64 (Zdigits2 M + e) in
  e <= t ->
  exists q',
    let q := M / 2 ^ (t - e) in
    (q' = q \/ (q' = q + 1 /\ M mod 2 ^ (t - e) <> 0)) /\
    q < 2 ^ 53 /\
    (-1074 < t -> 2 ^ 52 <= q) /\
    round64 s M e loc_Exact = rounded s q' t.
Proof.
  intros HM t Het. pose proof (Zdigits2_bounds M HM) as [Bl Bu].
  pose proof (Zdigits2_pos M HM) as Hd. set (d := Zdigits2 M) in *.
  assert (Ht : t = Z.max (d + e - 53) (-1074)) by (subst t; apply fexp64_eq).
  unfold binary_round_aux. unfold shr_fexp at 1. fold d. fold t.
  pose proof (shr_exact M e (t - e) ltac:(lia)) as Hs.
  cbn [shr_record_of_loc].
  destruct (shr {| shr_m := M; shr_r := false; shr_s := false |} e (t - e))
    as [mrs e'].
  destruct Hs as [He' [Hq Hf]]. replace (Z.max (t - e) 0) with (t - e) in * by lia.
  replace e' with t in * by lia. clear He' e'.
  set (q := M / 2 ^ (t - e)) in *.
  set (q' := round_nearest_even (shr_m mrs) (loc_of_shr_record mrs)).
  assert (Hq' : q' = q \/ (q' = q + 1 /\ M mod 2 ^ (t - e) <> 0)).
  { subst q'. rewrite Hq.
    destruct (rne_bounds q (loc_of_shr_record mrs)) as [->|[-> Hl]]; [auto|].
    right. split; [reflexivity|]. rewrite loc_exact_flags in Hl. tauto. }
  assert (Hq53 : q < 2 ^ 53 /\ (-1074 < t -> 2 ^ 52 <= q)).
  { destruct (Z_lt_le_dec (-1074) t) as [Hn|Hn].
    - assert (t - e = d - 53) by lia.
      pose proof (div_pow2_bounds M (d - 1) d (t - e) ltac:(lia) ltac:(lia)
                    (conj Bl Bu)) as [H1 H2].
      replace (d - (t - e)) with 53 in H2 by lia.
      replace (d - 1 - (t - e)) with 52 in H1 by lia. fold q in H1, H2. lia.
    - split; [|lia].
      assert (M / 2 ^ (t - e) < 2 ^ 53); [|assumption].
      apply Z.div_lt_upper_bound; [apply pow2_pos; lia|].
      destruct (Z_lt_le_dec d (t - e)) as [Hlt|Hge].
      + assert (2 ^ d <= 2 ^ (t - e)) by (apply pow2_le; lia).
        assert (0 < 2 ^ 53) by (apply pow2_pos; lia). nia.
      + replace d with (t - e + (d - (t - e))) in Bu by lia.
        rewrite Z.pow_add_r in Bu by lia.
        assert (2 ^ (d - (t - e)) <= 2 ^ 53) by (apply pow2_le; lia).
        pose proof (pow2_pos (t - e) ltac:(lia)). nia. }
  exists q'. split; [exact Hq'|]. split; [tauto|]. split; [tauto|].
  assert (Hq0 : 0 <= q) by (subst q; apply Z.div_pos; [lia | apply pow2_pos; lia]).
  assert (Hq'b : 0 <= q' <= 2 ^ 53) by lia.
  unfold rounded.
  destruct (Z.eqb_spec q' 0) as [E0|N0].
  { rewrite E0. unfold shr_fexp. rewrite shr_nop; [reflexivity|].
    rewrite fexp64_eq. simpl Zdigits2. lia. }
  destruct (Z.eqb_spec q' (2 ^ 53)) as [E53|N53].
  { rewrite E53.
    unfold shr_fexp. change (Zdigits2 (2 ^ 53)) with 54.
    rewrite fexp64_eq. replace (Z.max (54 + t - 53) (-1074) - t) with 1 by lia.
    let v := eval vm_compute in (2 ^ 53) in change (2 ^ 53) with v.
    cbn [shr SpecFloat.iter_pos shr_1 shr_record_of_loc shr_m].
    change (emax - prec) with 971.
    destruct (Z.leb_spec (t + 1) 971); reflexivity. }
  assert (Hq'pos : 0 < q') by lia.
  assert (Hdq' : Zdigits2 q' <= 53).
  { destruct (Z_lt_le_dec 53 (Zdigits2 q')) as [Hlt|]; [exfalso|assumption].
    pose proof (Zdigits2_bounds q' Hq'pos) as [B1 _].
    assert (2 ^ 53 <= 2 ^ (Zdigits2 q' - 1)) by (apply pow2_le; lia). lia. }
  assert (Hdq'n : -1074 < t -> Zdigits2 q' = 53).
  { intros Hn. apply Zdigits2_unique; [|assumption]. simpl (53 - 1). lia. }
  unfold shr_fexp. rewrite fexp64_eq.
  assert (Hz : Z.max (Zdigits2 q' + t - 53) (-1074) - t = 0).
  { destruct (Z_lt_le_dec (-1074) t) as [Hn|Hn]; [rewrite Hdq'n by assumption|]; lia. }
  rewrite shr_nop by lia. cbn [shr_record_of_loc shr_m].
  destruct q' as [|p|p]; try lia. reflexivity.
Qed.

Lemma round64_small s M e :
  0 < M -> fexp64 (Zdigits2 M + e) <= e ->
  round64 s M e loc_Exact =
  if e <=? 971 then S754_finite s (Z.to_pos M) e else S754_infinity s.
Proof.
  intros HM Ht. unfold binary_round_aux, shr_fexp.
  rewrite shr_nop by lia. cbn [shr_record_of_loc shr_m loc_of_shr_record round_nearest_even].
  rewrite shr_nop by lia. cbn [shr_m]. destruct M; try lia. reflexivity.
Qed.

(** *** Canonical mantissas *)

Lemma bounded_iff m e :
  bounded prec emax m e = true <->
  fexp64 (Zpos (digits2_pos m) + e) = e /\ e <= 971.
Proof.
  unfold bounded, canonical_mantissa. rewrite andb_true_iff, Z.eqb_eq, Z.leb_le.
  reflexivity.
Qed.

Lemma bounded_digits m e :
  bounded prec emax m e = true ->
  Zpos (digits2_pos m) <= 53 /\ -1074 <= e <= 971 /\ Zpos m < 2 ^ 53 /\
  (-1074 < e -> Zpos (digits2_pos m) = 53 /\ 2 ^ 52 <= Zpos m).
Proof.
  rewrite bounded_iff, fexp64_eq. intros [Hc He].
  pose proof (digits2_pos_bounds m) as [Bl Bu].
  assert (Hd : Zpos (digits2_pos m) <= 53) by lia.
  split; [exact Hd|]. split; [lia|]. split.
  - assert (2 ^ Zpos (digits2_pos m) <= 2 ^ 53) by (apply pow2_le; lia). lia.
  - intros Hn. assert (Zpos (digits2_pos m) = 53) as E by lia.
    split; [exact E|]. rewrite E in Bl. exact Bl.
Qed.

(** A representable value rounds to itself. *)
Lemma round64_representable s m e k :
  bounded prec emax m e = true -> 0 <= k ->
  round64 s (Zpos m * 2 ^ k) (e - k) loc_Exact = S754_finite s m e.
Proof.
  intros Hb Hk. pose proof (bounded_digits m e Hb) as (Hd & He & Hm & _).
  apply bounded_iff in Hb as [Hc _]. pose proof (pow2_pos k Hk) as Hp.
  assert (HM : 0 < Zpos m * 2 ^ k) by lia.
  assert (Ht : fexp64 (Zdigits2 (Zpos m * 2 ^ k) + (e - k)) = e).
  { rewrite Zdigits2_shift by lia. simpl Zdigits2.
    replace (Zpos (digits2_pos m) + k + (e - k)) with (Zpos (digits2_pos m) + e) by lia.
    exact Hc. }
  destruct (round64_exact s (Zpos m * 2 ^ k) (e - k) HM) as (q' & Hq' & _ & _ & ->).
  { rewrite Ht. lia. }
  rewrite Ht in *. replace (e - (e - k)) with k in Hq' by lia.
  rewrite Z.div_mul, Z.mod_mul in Hq' by lia.
  assert (q' = Zpos m) as -> by tauto.
  unfold rounded. destruct (Z.eqb_spec (Zpos m) 0); [lia|].
  destruct (Z.eqb_spec (Zpos m) (2 ^ 53)); [lia|].
  destruct (Z.leb_spec e 971); [reflexivity|lia].
Qed.

(** *** Rounding is monotone against representable values *)


Lemma round64_above s M e m1 e1 :
  bounded prec emax m1 e1 = true ->
  e <= e1 -> Zpos m1 * 2 ^ (e1 - e) <= M ->
  above s m1 e1 (round64 s M e loc_Exact).
Proof.
  intros Hb Hee HM1. pose proof (bounded_digits m1 e1 Hb) as (Hd1 & He1 & Hm1 & Hn1).
  apply bounded_iff in Hb as [Hc _]. rewrite fexp64_eq in Hc.
  pose proof (pow2_pos (e1 - e) ltac:(lia)) as Hp.
  assert (HM : 0 < M) by nia.
  assert (Hd : Zpos (digits2_pos m1) + (e1 - e) <= Zdigits2 M).
  { rewrite <- (Zdigits2_shift (Zpos m1)) by lia. apply Zdigits2_le. lia. }
  destruct (round64_exact s M e HM) as (q' & Hq' & Hq53 & Hq52 & ->).
  { rewrite fexp64_eq. lia. }
  set (t := fexp64 (Zdigits2 M + e)) in *.
  assert (Ht : e1 <= t) by (subst t; rewrite fexp64_eq; lia).
  set (q := M / 2 ^ (t - e)) in *.
  assert (Hq : e1 < t \/ (t = e1 /\ Zpos m1 <= q)).
  { destruct (Z.eq_dec t e1) as [E|]; [right|left; lia].
    split; [exact E|]. subst q. rewrite E.
    apply Z.div_le_lower_bound; lia. }
  assert (Hq1 : 1 <= q) by (destruct Hq as [Hq|Hq]; [specialize (Hq52 ltac:(lia))|]; lia).
  unfold rounded, above.
  destruct (Z.eqb_spec q' 0); [lia|].
  destruct (Z.eqb_spec q' (2 ^ 53)).
  - destruct (Z.leb_spec (t + 1) 971); [|reflexivity]. split; [reflexivity|lia].
  - destruct (Z.leb_spec t 971); [|reflexivity]. split; [reflexivity|].
    rewrite Z2Pos.id by lia. lia.
Qed.

Lemma round64_below s M e m1 e1 :
  bounded prec emax m1 e1 = true ->
  0 < M -> e <= e1 -> M <= Zpos m1 * 2 ^ (e1 - e) ->
  below s m1 e1 (round64 s M e loc_Exact).
Proof.
  intros Hb HM Hee HM1. pose proof (bounded_digits m1 e1 Hb) as (Hd1 & He1 & Hm1 & Hn1).
  apply bounded_iff in Hb as [Hc _]. rewrite fexp64_eq in Hc.
  pose proof (pow2_pos (e1 - e) ltac:(lia)) as Hp.
  assert (Hd : Zdigits2 M <= Zpos (digits2_pos m1) + (e1 - e)).
  { rewrite <- (Zdigits2_shift (Zpos m1)) by lia. apply Zdigits2_le. lia. }
  pose proof (round64_exact s M e HM) as Hex. pose proof (round64_small s M e HM) as Hsm.
  cbv zeta in Hex.
  remember (fexp64 (Zdigits2 M + e)) as t eqn:Et.
  assert (Ht : t <= e1) by (rewrite Et, fexp64_eq; lia).
  destruct (Z_lt_le_dec t e) as [Hlt|Hge].
  - rewrite Hsm by lia.
    destruct (Z.leb_spec e 971); [|lia]. split; [reflexivity|].
    rewrite Z2Pos.id by lia.
    destruct (Z.eq_dec e e1) as [->|]; [right|left; lia].
    rewrite Z.sub_diag in HM1. simpl in HM1. lia.
  - destruct (Hex Hge) as (q' & Hq' & Hq53 & Hq52 & ->).
    remember (M / 2 ^ (t - e)) as q eqn:Eq.
    pose proof (pow2_pos (t - e) ltac:(lia)) as Hpt.
    assert (Hq0 : 0 <= q) by (rewrite Eq; apply Z.div_pos; lia).
    assert (Hq : t = e1 -> q' <= Zpos m1).
    { intros E. rewrite E in *.
      assert (q <= Zpos m1).
      { rewrite Eq. apply Z.div_le_upper_bound; lia. }
      destruct Hq' as [->|[-> Hmod]]; [lia|].
      destruct (Z.eq_dec q (Zpos m1)) as [Eq1|]; [exfalso|lia].
      apply Hmod.
      pose proof (Z.div_mod M (2 ^ (e1 - e)) ltac:(lia)) as Hdm.
      pose proof (Z.mod_pos_bound M (2 ^ (e1 - e)) ltac:(lia)).
      rewrite <- Eq, Eq1 in Hdm. nia. }
    unfold rounded, below.
    destruct (Z.eqb_spec q' 0); [reflexivity|].
    destruct (Z.eqb_spec q' (2 ^ 53)) as [E53|].
    + assert (t < e1) by (destruct (Z.eq_dec t e1) as [E|]; [specialize (Hq E)|]; lia).
      destruct (Z.leb_spec (t + 1) 971); [|lia]. split; [reflexivity|].
      destruct (Z.eq_dec (t + 1) e1) as [E|]; [right|left; lia].
      split; [exact E|]. specialize (Hn1 ltac:(rewrite fexp64_eq in Et; lia)).
      change (Zpos (2 ^ 52)) with (2 ^ 52). lia.
    + destruct (Z.leb_spec t 971); [|lia]. split; [reflexivity|].
      rewrite Z2Pos.id by lia.
      destruct (Z.eq_dec t e1) as [E|]; [right|left; lia].
      split; [exact E|]. apply Hq, E.
Qed.

(** *** The sign of a rounded result *)


Lemma shr_1_nonneg mrs : 0 <= shr_m mrs -> 0 <= shr_m (shr_1 mrs).
Proof. intros H. rewrite shr_1_m by assumption. apply Z.div_pos; lia. Qed.

Lemma iter_shr_1_nonneg p : forall mrs,
  0 <= shr_m mrs -> 0 <= shr_m (SpecFloat.iter_pos shr_1 p mrs).
Proof.
  induction p as [p IH|p IH|]; intros mrs H; simpl.
  - apply IH, IH, shr_1_nonneg, H.
  - apply IH, IH, H.
  - apply shr_1_nonneg, H.
Qed.

Lemma shr_nonneg mrs e n : 0 <= shr_m mrs -> 0 <= shr_m (fst (shr mrs e n)).
Proof.
  intros H. destruct n; simpl; try assumption. apply iter_shr_1_nonneg, H.
Qed.

Lemma shr_record_of_loc_m M l : shr_m (shr_record_of_loc M l) = M.
Proof. destruct l as [|[| |]]; reflexivity. Qed.

Lemma round64_sign s M e l : 0 <= M -> has_sign s (round64 s M e l).
Proof.
  intros HM. unfold binary_round_aux, shr_fexp.
  pose proof (shr_nonneg (shr_record_of_loc M l) e
                (fexp64 (Zdigits2 M + e) - e)) as H1.
  rewrite shr_record_of_loc_m in H1. specialize (H1 HM).
  destruct (shr (shr_record_of_loc M l) e _) as [mrs' e']. cbn [fst] in H1.
  set (q' := round_nearest_even (shr_m mrs') (loc_of_shr_record mrs')).
  assert (Hq' : 0 <= q') by (destruct (rne_bounds (shr_m mrs') (loc_of_shr_record mrs')); subst q'; lia).
  pose proof (shr_nonneg (shr_record_of_loc q' loc_Exact) e'
                (fexp64 (Zdigits2 q' + e') - e')) as H2.
  rewrite shr_record_of_loc_m in H2. specialize (H2 Hq').
  destruct (shr (shr_record_of_loc q' loc_Exact) e' _) as [mrs'' e'']. cbn [fst] in H2.
  destruct (shr_m mrs''); try lia; [reflexivity|].
  destruct (e'' <=? emax - prec); reflexivity.
Qed.

(** *** [binary_round]: align to the format's exponent, then round *)

Lemma pos_iter_xO m d : Zpos (Pos.iter xO m d) = Zpos m * 2 ^ Zpos d.
Proof.
  induction d as [|d IH] using Pos.peano_ind.
  - simpl. lia.
  - rewrite Pos.iter_succ, Pos2Z.inj_xO, IH, Pos2Z.inj_succ.
    unfold Z.succ. rewrite pow2_succ by lia. lia.
Qed.

Lemma shl_align_spec m e t :
  exists k, 0 <= k /\ k = Z.max (e - t) 0 /\
            shl_align m e t = (Z.to_pos (Zpos m * 2 ^ k), e - k).
Proof.
  unfold shl_align. destruct (t - e) as [|p|p] eqn:E.
  - exists 0. split; [lia|]. split; [lia|]. rewrite Z.mul_1_r, Z.sub_0_r. reflexivity.
  - exists 0. split; [lia|]. split; [lia|]. rewrite Z.mul_1_r, Z.sub_0_r. reflexivity.
  - exists (Zpos p). split; [lia|]. split; [lia|].
    rewrite <- pos_iter_xO. simpl Z.to_pos. f_equal. lia.
Qed.


Lemma bround64_eq s m e :
  exists k, 0 <= k /\
    bround64 s m e = round64 s (Zpos m * 2 ^ k) (e - k) loc_Exact.
Proof.
  unfold binary_round.
  destruct (shl_align_spec m e (fexp64 (Zpos (digits2_pos m) + e))) as (k & Hk & _ & ->).
  exists k. split; [exact Hk|].
  rewrite Z2Pos.id; [reflexivity|]. pose proof (pow2_pos k Hk). lia.
Qed.

Lemma bround64_sign s m e : has_sign s (bround64 s m e).
Proof.
  destruct (bround64_eq s m e) as (k & Hk & ->). apply round64_sign.
  pose proof (pow2_pos k Hk). lia.
Qed.

Lemma bround64_above s m e m1 e1 :
  bounded prec emax m1 e1 = true ->
  e <= e1 -> Zpos m1 * 2 ^ (e1 - e) <= Zpos m ->
  above s m1 e1 (bround64 s m e).
Proof.
  intros Hb He Hm. destruct (bround64_eq s m e) as (k & Hk & ->).
  apply round64_above; [assumption|lia|].
  replace (e1 - (e - k)) with (e1 - e + k) by lia.
  rewrite Z.pow_add_r by lia. pose proof (pow2_pos k Hk). nia.
Qed.

Lemma bround64_below s m e m1 e1 :
  bounded prec emax m1 e1 = true ->
  e <= e1 -> Zpos m <= Zpos m1 * 2 ^ (e1 - e) ->
  below s m1 e1 (bround64 s m e).
Proof.
  intros Hb He Hm. destruct (bround64_eq s m e) as (k & Hk & ->).
  pose proof (pow2_pos k Hk).
  apply round64_below; [assumption|lia|lia|].
  replace (e1 - (e - k)) with (e1 - e + k) by lia.
  rewrite Z.pow_add_r by lia. nia.
Qed.

(** *** Aligned mantissas and the order on canonical numbers *)

Lemma aligned m e ez :
  ez <= e -> Zpos (fst (shl_align m e ez)) = Zpos m * 2 ^ (e - ez).
Proof.
  intros He. destruct (shl_align_spec m e ez) as (k & Hk & Ek & ->).
  cbn [fst]. replace k with (e - ez) by lia.
  rewrite Z2Pos.id; [reflexivity|]. pose proof (pow2_pos (e - ez) ltac:(lia)). lia.
Qed.

(** Between canonical numbers the smaller exponent has the smaller
    magnitude. *)
Lemma canonical_lt m1 e1 m2 e2 :
  bounded prec emax m1 e1 = true -> bounded prec emax m2 e2 = true ->
  e1 < e2 -> Zpos m1 < Zpos m2 * 2 ^ (e2 - e1).
Proof.
  intros H1 H2 He. pose proof (bounded_digits m1 e1 H1) as (_ & He1 & Hm1 & _).
  pose proof (bounded_digits m2 e2 H2) as (_ & _ & _ & Hn2).
  specialize (Hn2 ltac:(lia)) as [_ Hm2].
  assert (2 ^ 1 <= 2 ^ (e2 - e1)) by (apply pow2_le; lia).
  change (2 ^ 1) with 2 in *. change (2 ^ 53) with (2 * 2 ^ 52) in Hm1.
  assert (0 < 2 ^ 52) by (apply pow2_pos; lia). nia.
Qed.

Lemma SFleb_aligned sx mx ex sy my ey :
  bounded prec emax mx ex = true -> bounded prec emax my ey = true ->
  SFleb (S754_finite sy my ey) (S754_finite sx mx ex) = true ->
  cond_Zopp sy (Zpos (fst (shl_align my ey (Z.min ex ey)))) <=
  cond_Zopp sx (Zpos (fst (shl_align mx ex (Z.min ex ey)))).
Proof.
  intros Hx Hy. rewrite !aligned by lia. unfold SFleb, SFcompare.
  pose proof (pow2_pos (ex - Z.min ex ey) ltac:(lia)).
  pose proof (pow2_pos (ey - Z.min ex ey) ltac:(lia)).
  destruct sy, sx; cbn [cond_Zopp]; try discriminate; try lia.
  - destruct (Z.compare_spec ey ex) as [E|L|G]; try discriminate.
    + subst ey. rewrite Z.min_id, Z.sub_diag, !Z.mul_1_r.
      change (Pos.compare_cont Eq my mx) with (Pos.compare my mx).
      destruct (Pos.compare_spec my mx); simpl; try discriminate; lia.
    + intros _. pose proof (canonical_lt mx ex my ey Hx Hy ltac:(lia)).
      rewrite Z.min_l, Z.sub_diag, Z.mul_1_r by lia. lia.
  - destruct (Z.compare_spec ey ex) as [E|L|G]; try discriminate.
    + subst ey. rewrite Z.min_id, Z.sub_diag, !Z.mul_1_r.
      change (Pos.compare_cont Eq my mx) with (Pos.compare my mx).
      destruct (Pos.compare_spec my mx); simpl; try discriminate; lia.
    + intros _. pose proof (canonical_lt my ey mx ex Hy Hx ltac:(lia)).
      rewrite Z.min_r, Z.sub_diag, Z.mul_1_r by lia. lia.
Qed.

(** *** Signs and order through the four operations *)


Lemma has_sign_nonneg R : has_sign false R -> nonneg R.
Proof. destruct R as [s|s| |s m e]; simpl; try tauto; intros ->; exact I. Qed.

Lemma nonneg_SFleb x : SFleb (S754_zero false) x = true <-> nonneg x.
Proof.
  destruct x as [s|[|]| |[|] m e]; simpl; unfold SFleb; simpl;
    split; (tauto || discriminate || reflexivity || idtac); auto.
Qed.

Lemma SFsub_nonneg x y :
  valid_binary x = true -> valid_binary y = true ->
  fin x \/ x = S754_infinity false -> fin y ->
  SFleb y x = true -> nonneg (SF64sub x y).
Proof.
  intros Vx Vy Fx Fy Hle.
  destruct y as [sy|sy| |sy my ey]; simpl in Fy; try tauto;
    destruct x as [sx|sx| |sx mx ex];
    try (destruct Fx as [Fx|Fx]; [simpl in Fx; tauto | discriminate Fx]).
  - destruct sx, sy; exact I.
  - destruct Fx as [Fx|Fx]; [simpl in Fx; tauto|]. injection Fx as ->. exact I.
  - unfold SFleb in Hle; simpl in Hle. destruct sx; [discriminate|exact I].
  - unfold SFleb in Hle; simpl in Hle. destruct sy; [exact I|discriminate].
  - destruct Fx as [Fx|Fx]; [simpl in Fx; tauto|]. injection Fx as ->. exact I.
  - pose proof (SFleb_aligned sx mx ex sy my ey Vx Vy Hle) as H.
    unfold SF64sub, SFsub. cbv zeta.
    set (X := cond_Zopp sx _) in *. set (Y := cond_Zopp sy _) in *.
    unfold binary_normalize. destruct (X - Y) as [|p|p] eqn:E; try lia.
    + exact I.
    + apply has_sign_nonneg, bround64_sign.
Qed.

Lemma div_eucl_eq a b : Z.div_eucl a b = (a / b, a mod b).
Proof. unfold Z.div, Z.modulo. destruct (Z.div_eucl a b). reflexivity. Qed.

Lemma SFdiv_nonneg x y :
  nonneg x -> positive_finite y -> nonneg (SF64div x y).
Proof.
  destruct y as [| | |[|] my ey]; simpl; try tauto. intros Hx _.
  destruct x as [sx|[|]| |[|] mx ex]; simpl in Hx; try tauto.
  unfold SF64div, SFdiv, SFdiv_core_binary. cbv zeta.
  rewrite div_eucl_eq. apply has_sign_nonneg, round64_sign.
  apply Z.div_pos; [|lia].
  destruct (ex - ey - _) as [|p|p]; try lia.
  apply Z.shiftl_nonneg. lia.
Qed.

Lemma SFmul_nonneg x y :
  positive_finite x -> nonneg y -> nonneg (SF64mul x y).
Proof.
  destruct x as [| | |[|] mx ex]; simpl; try tauto. intros _ Hy.
  destruct y as [sy|[|]| |[|] my ey]; simpl in Hy; try tauto.
  unfold SF64mul, SFmul. apply has_sign_nonneg, round64_sign. lia.
Qed.

Lemma SFcompare_refl s m e :
  SFcompare (S754_finite s m e) (S754_finite s m e) = Some Eq.
Proof.
  simpl. rewrite Z.compare_refl.
  change (Pos.compare_cont Eq m m) with (Pos.compare m m).
  rewrite Pos.compare_refl. destruct s; reflexivity.
Qed.

Lemma SFadd_ge x q :
  valid_binary x = true -> valid_binary q = true ->
  fin x -> nonneg q -> SFleb x (SF64add x q) = true.
Proof.
  intros Vx Vq Fx Hq.
  destruct x as [sx|sx| |sx mx ex]; simpl in Fx; try contradiction;
    destruct q as [sq|[|]| |[|] my ey]; simpl in Hq; try contradiction.
  - destruct sx, sq; reflexivity.
  - reflexivity.
  - reflexivity.
  - unfold SFleb. simpl SF64add. rewrite SFcompare_refl. reflexivity.
  - destruct sx; reflexivity.
  - unfold SF64add, SFadd. cbv zeta.
    assert (Ax := aligned mx ex (Z.min ex ey) ltac:(lia)).
    assert (Ay := aligned my ey (Z.min ex ey) ltac:(lia)).
    pose proof (pow2_pos (ex - Z.min ex ey) ltac:(lia)).
    pose proof (pow2_pos (ey - Z.min ex ey) ltac:(lia)).
    set (ax := fst (shl_align mx ex _)) in *. set (ay := fst (shl_align my ey _)) in *.
    unfold binary_normalize. cbn [cond_Zopp].
    destruct sx; cbn [cond_Zopp].
    + destruct (- Zpos ax + Zpos ay) as [|p|p] eqn:E.
      * reflexivity.
      * pose proof (bround64_sign false p (Z.min ex ey)) as Hs.
        destruct (bround64 false p _) as [s|s| |s m e]; simpl in Hs; try contradiction;
          subst s; reflexivity.
      * pose proof (bround64_below true p (Z.min ex ey) mx ex Vx ltac:(lia) ltac:(lia)) as Hb.
        destruct (bround64 true p _) as [s|s| |s m e]; simpl in Hb; try contradiction.
        -- subst s. reflexivity.
        -- destruct Hb as [-> Hb]. unfold SFleb, SFcompare.
           destruct (Z.compare_spec ex e) as [Ee|L|G]; try reflexivity; try lia.
           change (Pos.compare_cont Eq mx m) with (Pos.compare mx m).
           destruct (Pos.compare_spec mx m); simpl; try reflexivity. lia.
    + destruct (Zpos ax + Zpos ay) as [|p|p] eqn:E; try lia.
      pose proof (bround64_above false p (Z.min ex ey) mx ex Vx ltac:(lia) ltac:(lia)) as Hb.
      destruct (bround64 false p _) as [s|s| |s m e]; simpl in Hb; try contradiction.
      * subst s. reflexivity.
      * destruct Hb as [-> Hb]. unfold SFleb, SFcompare.
        destruct (Z.compare_spec ex e) as [Ee|L|G]; try reflexivity; try lia.
        change (Pos.compare_cont Eq mx m) with (Pos.compare mx m).
        destruct (Pos.compare_spec mx m); simpl; try reflexivity. lia.
Qed.

(** *** Exact operations: dividing and multiplying by one, [x / x] *)


Lemma SFdiv_one s m e :
  bounded prec emax m e = true ->
  SF64div (S754_finite s m e) SFone = S754_finite s m e.
Proof.
  intros Hb. pose proof (bounded_digits m e Hb) as (Hd & He & Hm & Hn).
  pose proof (proj1 (bounded_iff m e) Hb) as [Hc _]. rewrite fexp64_eq in Hc.
  unfold SF64div, SFdiv, SFdiv_core_binary. cbv zeta.
  change (Zdigits2 (Zpos m)) with (Zpos (digits2_pos m)).
  change (Zdigits2 4503599627370496) with 53.
  rewrite fexp64_eq, div_eucl_eq.
  set (d := Zpos (digits2_pos m)) in *.
  assert (Hj : exists j, 0 <= j /\
            Z.min (Z.max (d + e - (53 + -52) - 53) (-1074)) (e - -52) = e - j).
  { destruct (Z_lt_le_dec (-1074) e) as [Hlt|Hle].
    - exists 1. destruct (Hn Hlt) as [Hd53 _]. lia.
    - exists 0. lia. }
  destruct Hj as (j & Hj & ->).
  replace (e - -52 - (e - j)) with (52 + j) by lia.
  destruct (52 + j) as [|p|p] eqn:Ep; try lia. rewrite <- Ep.
  rewrite Z.shiftl_mul_pow2 by lia.
  replace (2 ^ (52 + j)) with (2 ^ j * 4503599627370496)
    by (rewrite Z.pow_add_r by lia; change (2 ^ 52) with 4503599627370496; lia).
  rewrite Z.mul_assoc, Z.div_mul, Z.mod_mul by lia.
  change (new_location 4503599627370496 0) with loc_Exact.
  rewrite xorb_false_r. apply round64_representable; assumption.
Qed.

Lemma SFmul_one s m e :
  bounded prec emax m e = true ->
  SF64mul SFone (S754_finite s m e) = S754_finite s m e.
Proof.
  intros Hb. unfold SF64mul, SFmul. cbn [xorb].
  replace (Zpos (4503599627370496 * m)) with (Zpos m * 2 ^ 52)
    by (change (2 ^ 52) with 4503599627370496; lia).
  replace (-52 + e) with (e - 52) by lia.
  apply round64_representable; [assumption|lia].
Qed.

Lemma SFdiv_self s m e :
  SF64div (S754_finite s m e) (S754_finite s m e) = SFone.
Proof.
  unfold SF64div, SFdiv, SFdiv_core_binary. cbv zeta.
  replace (Zdigits2 (Zpos m) + e - (Zdigits2 (Zpos m) + e)) with 0 by lia.
  rewrite Z.sub_diag. change (Z.min (fexp64 0) 0) with (-53).
  change (0 - -53) with 53. cbv iota beta.
  rewrite Z.shiftl_mul_pow2, div_eucl_eq by lia.
  rewrite Z.mul_comm, Z.div_mul, Z.mod_mul by lia.
  assert (Hl : new_location (Zpos m) 0 = loc_Exact).
  { unfold new_location. destruct (Z.even (Zpos m)); reflexivity. }
  rewrite Hl, xorb_nilpotent. reflexivity.
Qed.

(** *** When [y + (x - y)] is exactly [x] *)

Lemma bround64_representable s q e m1 e1 :
  bounded prec emax m1 e1 = true -> e <= e1 ->
  Zpos q = Zpos m1 * 2 ^ (e1 - e) ->
  bround64 s q e = S754_finite s m1 e1.
Proof.
  intros Hb He Hq. destruct (bround64_eq s q e) as (k & Hk & ->).
  rewrite Hq, <- Z.mul_assoc, <- Z.pow_add_r by lia.
  replace (e - k) with (e1 - (e1 - e + k)) by lia.
  apply round64_representable; [assumption|lia].
Qed.

(** A mantissa with room to spare is only re-aligned. *)
Lemma bround64_fits s p e :
  fexp64 (Zpos (digits2_pos p) + e) <= e -> e <= 971 ->
  exists P t, bround64 s p e = S754_finite s P t /\ t <= e /\
              Zpos P = Zpos p * 2 ^ (e - t).
Proof.
  intros Ht He. unfold binary_round.
  destruct (shl_align_spec p e (fexp64 (Zpos (digits2_pos p) + e))) as (k & Hk & Ek & ->).
  pose proof (pow2_pos k Hk) as Hp.
  rewrite Z2Pos.id by lia.
  rewrite round64_small.
  - destruct (Z.leb_spec (e - k) 971); [|lia].
    exists (Z.to_pos (Zpos p * 2 ^ k)), (e - k).
    split; [reflexivity|]. split; [lia|].
    rewrite Z2Pos.id by lia. f_equal. f_equal. lia.
  - lia.
  - rewrite Zdigits2_shift by lia. simpl Zdigits2.
    replace (Zpos (digits2_pos p) + k + (e - k)) with (Zpos (digits2_pos p) + e) by lia.
    lia.
Qed.

Lemma SFsub_add_exact mx ex my ey :
  bounded prec emax mx ex = true -> bounded prec emax my ey = true ->
  SFleb (S754_finite false my ey) (S754_finite false mx ex) = true ->
  SFltb (SF64sub (S754_finite false mx ex) (S754_finite false my ey))
        (S754_finite false my ey) = true ->
  SF64add (S754_finite false my ey)
          (SF64sub (S754_finite false mx ex) (S754_finite false my ey)) =
  S754_finite false mx ex.
Proof.
  intros Vx Vy Hle Hlt.
  pose proof (SFleb_aligned false mx ex false my ey Vx Vy Hle) as Hal.
  assert (Hee : ey <= ex).
  { unfold SFleb, SFcompare in Hle.
    destruct (Z.compare_spec ey ex); first [lia | discriminate Hle]. }
  pose proof (bounded_digits my ey Vy) as (Hdy & Hey & Hmy & _).
  pose proof (proj1 (bounded_iff my ey) Vy) as [Hcy _]. rewrite fexp64_eq in Hcy.
  revert Hlt. unfold SF64sub, SFsub. cbv zeta.
  rewrite Z.min_r in * by lia.
  assert (Ax := aligned mx ex ey Hee). assert (Ay := aligned my ey ey ltac:(lia)).
  rewrite Z.sub_diag, Z.mul_1_r in Ay.
  set (ax := fst (shl_align mx ex ey)) in *. set (ay := fst (shl_align my ey ey)) in *.
  cbn [cond_Zopp] in *. unfold binary_normalize.
  destruct (Zpos ax - Zpos ay) as [|p|p] eqn:E; try lia; intros Hlt.
  - (* x = y *)
    cbn. assert (ex = ey) as ->.
    { destruct (Z.eq_dec ex ey) as [|Hne]; [assumption|].
      pose proof (canonical_lt my ey mx ex Vy Vx ltac:(lia)). lia. }
    rewrite Z.sub_diag, Z.mul_1_r in Ax. f_equal. lia.
  - assert (Hp : Zpos p <= Zpos my).
    { destruct (Z_le_gt_dec (Zpos p) (Zpos my)) as [|Hgt]; [assumption|exfalso].
      pose proof (bround64_above false p ey my ey Vy ltac:(lia)) as Hab.
      rewrite Z.sub_diag, Z.mul_1_r in Hab. specialize (Hab ltac:(lia)).
      destruct (bround64 false p ey) as [s|s| |s m e]; simpl in Hab; try contradiction.
      - subst s. discriminate Hlt.
      - destruct Hab as [-> Hab]. unfold SFltb, SFcompare in Hlt.
        destruct (Z.compare_spec e ey); try lia; try discriminate Hlt.
        change (Pos.compare_cont Eq m my) with (Pos.compare m my) in Hlt.
        destruct (Pos.compare_spec m my); try discriminate Hlt. lia. }
    assert (Hdp : Zpos (digits2_pos p) <= Zpos (digits2_pos my))
      by (apply digits2_pos_le; lia).
    destruct (bround64_fits false p ey) as (P & t & -> & Ht & HP).
    { rewrite fexp64_eq. lia. }
    { lia. }
    unfold SF64add, SFadd. cbv zeta. rewrite Z.min_r by lia.
    rewrite !aligned by lia. rewrite Z.sub_diag, Z.mul_1_r. cbn [cond_Zopp].
    pose proof (pow2_pos (ey - t) ltac:(lia)).
    assert (Hsum : Zpos my * 2 ^ (ey - t) + Zpos P = Zpos mx * 2 ^ (ex - t)).
    { rewrite HP. replace (ex - t) with (ex - ey + (ey - t)) by lia.
      rewrite Z.pow_add_r by lia. nia. }
    unfold binary_normalize.
    destruct (Zpos my * 2 ^ (ey - t) + Zpos P) as [|q|q] eqn:Eq; try lia.
    apply bround64_representable; [assumption|lia|exact Hsum].
Qed.

(** *** The same facts on primitive floats *)

(** [is_finite] is Python's [math.isfinite]: neither an infinity nor a NaN. *)
Lemma is_finite_iff x :
  is_finite x = true <->
  match Prim2SF x with S754_zero _ | S754_finite _ _ _ => True | _ => False end.
Proof.
  unfold is_finite, is_nan, is_infinity.
  rewrite !FloatAxioms.eqb_spec, FloatAxioms.abs_spec.
  change (Prim2SF infinity) with (S754_infinity false).
  destruct (Prim2SF x) as [s|s| |s m e].
  - destruct s; split; [exact (fun _ => I) | reflexivity..].
  - destruct s; split; (discriminate || contradiction).
  - split; (discriminate || contradiction).
  - unfold SFeqb. cbn [SFabs]. rewrite SFcompare_refl.
    split; [exact (fun _ => I) | reflexivity].
Qed.

Lemma is_finite_fin x : is_finite x = true -> fin (Prim2SF x).
Proof. intros H. apply is_finite_iff in H. exact H. Qed.

Lemma leb_zero_nonneg x : (0 <=? x)%float = true <-> nonneg (Prim2SF x).
Proof.
  rewrite FloatAxioms.leb_spec. change (Prim2SF 0) with (S754_zero false). apply nonneg_SFleb.
Qed.

Lemma ltb_zero_positive x :
  (0 <? x)%float = true -> is_finite x = true -> positive_finite (Prim2SF x).
Proof.
  intros H F. apply is_finite_fin in F. revert H. rewrite FloatAxioms.ltb_spec.
  change (Prim2SF 0) with (S754_zero false).
  destruct (Prim2SF x) as [s|s| |[|] m e]; cbn in F; try contradiction; intros H.
  - discriminate H.
  - discriminate H.
  - exact I.
Qed.

Lemma leb_one_finite x : (x <=? 1)%float = true -> (0 <? x)%float = true -> is_finite x = true.
Proof.
  rewrite is_finite_iff, FloatAxioms.leb_spec, FloatAxioms.ltb_spec.
  change (Prim2SF 1) with SFone. change (Prim2SF 0) with (S754_zero false).
  destruct (Prim2SF x) as [s|[|]| |s m e]; intros H1 H0.
  - exact I.
  - discriminate H0.
  - discriminate H1.
  - discriminate H0.
  - exact I.
Qed.

Lemma SFleb_fin_or_inf x y :
  fin y -> SFleb y x = true -> fin x \/ x = S754_infinity false.
Proof.
  intros Fy H.
  destruct x as [sx|[|]| |sx mx ex].
  - left; exact I.
  - destruct y as [sy|sy| |sy my ey]; cbn in Fy; try contradiction; discriminate H.
  - right; reflexivity.
  - destruct y as [sy|sy| |sy my ey]; discriminate H.
  - left; exact I.
Qed.

(** The sign of line 82's value, from the signs of its parts. *)
Lemma power_sign h_in h_out_s eta mf :
  is_finite h_in = true -> is_finite mf = true ->
  (h_in <=? h_out_s)%float = true ->
  (0 <? mf)%float = true ->
  (0 <? eta)%float = true -> (eta <=? 1)%float = true ->
  (0 <=? mf * (h_in + (h_out_s - h_in) / eta - h_in))%float = true.
Proof.
  intros Fh Fm Hle Hm He0 He1.
  pose proof (is_finite_fin h_in Fh) as Fhi.
  pose proof (ltb_zero_positive mf Hm Fm) as Pm.
  pose proof (ltb_zero_positive eta He0 (leb_one_finite eta He1 He0)) as Pe.
  rewrite FloatAxioms.leb_spec in Hle.
  assert (D1 : nonneg (Prim2SF (h_out_s - h_in)%float)).
  { rewrite FloatAxioms.sub_spec. apply SFsub_nonneg; try apply Prim2SF_valid; try assumption.
    apply (SFleb_fin_or_inf _ _ Fhi Hle). }
  assert (Q : nonneg (Prim2SF ((h_out_s - h_in) / eta)%float)).
  { rewrite FloatAxioms.div_spec. apply SFdiv_nonneg; assumption. }
  assert (HO : SFleb (Prim2SF h_in) (Prim2SF (h_in + (h_out_s - h_in) / eta)%float) = true).
  { rewrite FloatAxioms.add_spec. apply SFadd_ge; try apply Prim2SF_valid; assumption. }
  assert (D2 : nonneg (Prim2SF (h_in + (h_out_s - h_in) / eta - h_in)%float)).
  { rewrite FloatAxioms.sub_spec. apply SFsub_nonneg; try apply Prim2SF_valid; try assumption.
    apply (SFleb_fin_or_inf _ _ Fhi HO). }
  apply leb_zero_nonneg. rewrite FloatAxioms.mul_spec. apply SFmul_nonneg; assumption.
Qed.

Lemma div_one x : (x / 1)%float = x.
Proof.
  apply Prim2SF_inj. rewrite FloatAxioms.div_spec. change (Prim2SF 1) with SFone.
  pose proof (Prim2SF_valid x) as V.
  destruct (Prim2SF x) as [s|s| |s m e].
  - destruct s; reflexivity.
  - destruct s; reflexivity.
  - reflexivity.
  - apply SFdiv_one, V.
Qed.

Lemma mul_one x : (1 * x)%float = x.
Proof.
  apply Prim2SF_inj. rewrite FloatAxioms.mul_spec. change (Prim2SF 1) with SFone.
  pose proof (Prim2SF_valid x) as V.
  destruct (Prim2SF x) as [s|s| |s m e].
  - reflexivity.
  - reflexivity.
  - reflexivity.
  - apply SFmul_one, V.
Qed.

Lemma div_self x :
  is_finite x = true -> (x =? 0)%float = false -> (x / x)%float = 1%float.
Proof.
  intros F N. apply is_finite_fin in F. apply Prim2SF_inj.
  rewrite FloatAxioms.eqb_spec in N. rewrite FloatAxioms.div_spec.
  change (Prim2SF 0) with (S754_zero false) in N. change (Prim2SF 1) with SFone.
  destruct (Prim2SF x) as [s|s| |s m e]; simpl in F; try contradiction.
  - discriminate N.
  - apply SFdiv_self.
Qed.

(** [h_in + (h_out_s - h_in)] is [h_out_s] when both are positive and the
    computed rise is smaller than [h_in]. *)
Lemma add_sub_exact x y :
  (0 <? y)%float = true -> (y <=? x)%float = true ->
  (x - y <? y)%float = true -> (y + (x - y))%float = x.
Proof.
  intros H0 Hle Hlt. apply Prim2SF_inj.
  rewrite FloatAxioms.add_spec, FloatAxioms.sub_spec.
  rewrite FloatAxioms.ltb_spec in H0, Hlt. rewrite FloatAxioms.leb_spec in Hle.
  rewrite FloatAxioms.sub_spec in Hlt.
  change (Prim2SF 0) with (S754_zero false) in H0.
  pose proof (Prim2SF_valid x) as Vx. pose proof (Prim2SF_valid y) as Vy.
  destruct (Prim2SF y) as [sy|[|]| |[|] my ey]; try discriminate H0.
  - destruct (Prim2SF x) as [sx|[|]| |sx mx ex]; try discriminate Hle;
      discriminate Hlt.
  - destruct (Prim2SF x) as [sx|[|]| |[|] mx ex]; try discriminate Hle.
    + discriminate Hlt.
    + apply SFsub_add_exact; assumption.
Qed.

(** On finite non-zero numbers Python's [==] is identity. *)
Lemma eqb_finite_eq x y :
  is_finite x = true -> (x =? 0)%float = false ->
  (y =? x)%float = true -> y = x.
Proof.
  intros F N E. apply is_finite_fin in F. apply Prim2SF_inj.
  rewrite FloatAxioms.eqb_spec in N, E.
  change (Prim2SF 0) with (S754_zero false) in N.
  destruct (Prim2SF x) as [s|s| |s m e]; cbn in F; try contradiction.
  - discriminate N.
  - destruct (Prim2SF y) as [s'|s'| |s' m' e'].
    + destruct s; discriminate E.
    + destruct s'; discriminate E.
    + discriminate E.
    + unfold SFeqb, SFcompare in E.
      destruct s', s; try discriminate E;
        destruct (Z.compare_spec e' e) as [Ee|L|G]; try discriminate E;
        change (Pos.compare_cont Eq m' m) with (Pos.compare m' m) in E;
        destruct (Pos.compare_spec m' m) as [Em|L|G]; try discriminate E;
        subst; reflexivity.
Qed.

(** *** Zeros, and the sign of line 82 for any finite efficiency *)

Lemma eqb_zero x : (x =? 0)%float = true -> exists s, Prim2SF x = S754_zero s.
Proof.
  rewrite FloatAxioms.eqb_spec. change (Prim2SF 0) with (S754_zero false).
  destruct (Prim2SF x) as [s|s| |s m e]; intros H.
  - exists s. reflexivity.
  - destruct s; discriminate H.
  - discriminate H.
  - destruct s; discriminate H.
Qed.

Lemma zero_eqb x s : Prim2SF x = S754_zero s -> (x =? 0)%float = true.
Proof.
  intros H. rewrite FloatAxioms.eqb_spec, H. destruct s; reflexivity.
Qed.

(** A finite number times a zero is a zero. *)
Lemma mul_zero f z :
  is_finite f = true -> (z =? 0)%float = true -> (f * z =? 0)%float = true.
Proof.
  intros F Z. apply is_finite_fin in F. destruct (eqb_zero z Z) as [s Hz].
  destruct (Prim2SF f) as [sf|sf| |sf m e] eqn:Ef; cbn in F; try contradiction.
  - apply (zero_eqb _ (xorb sf s)). rewrite FloatAxioms.mul_spec, Ef, Hz. reflexivity.
  - apply (zero_eqb _ (xorb sf s)). rewrite FloatAxioms.mul_spec, Ef, Hz. reflexivity.
Qed.

(** A zero divided by a number that is neither zero nor a NaN is a zero. *)
Lemma zero_div z y :
  (z =? 0)%float = true -> (y =? 0)%float = false -> is_nan y = false ->
  (z / y =? 0)%float = true.
Proof.
  intros Z N NaN. destruct (eqb_zero z Z) as [s Hz].
  unfold is_nan in NaN. apply negb_false_iff in NaN.
  rewrite FloatAxioms.eqb_spec in N, NaN.
  change (Prim2SF 0) with (S754_zero false) in N.
  destruct (Prim2SF y) as [sy|sy| |sy m e] eqn:Ey.
  - destruct sy; discriminate N.
  - apply (zero_eqb _ (xorb s sy)). rewrite FloatAxioms.div_spec, Ey, Hz. reflexivity.
  - discriminate NaN.
  - apply (zero_eqb _ (xorb s sy)). rewrite FloatAxioms.div_spec, Ey, Hz. reflexivity.
Qed.

(** Lines 79 and 108: the outlet enthalpy is not below the inlet one. *)
Lemma enthalpy_rise h_in h_out_s eta :
  is_finite h_in = true -> is_finite eta = true ->
  (h_in <=? h_out_s)%float = true -> (0 <? eta)%float = true ->
  (h_in <=? h_in + (h_out_s - h_in) / eta)%float = true.
Proof.
  intros Fh Fe Hle He0.
  pose proof (is_finite_fin h_in Fh) as Fhi.
  pose proof (ltb_zero_positive eta He0 Fe) as Pe.
  rewrite FloatAxioms.leb_spec in Hle.
  assert (D1 : nonneg (Prim2SF (h_out_s - h_in)%float)).
  { rewrite FloatAxioms.sub_spec. apply SFsub_nonneg; try apply Prim2SF_valid; try assumption.
    apply (SFleb_fin_or_inf _ _ Fhi Hle). }
  assert (Q : nonneg (Prim2SF ((h_out_s - h_in) / eta)%float)).
  { rewrite FloatAxioms.div_spec. apply SFdiv_nonneg; assumption. }
  rewrite FloatAxioms.leb_spec, FloatAxioms.add_spec.
  apply SFadd_ge; try apply Prim2SF_valid; assumption.
Qed.

Lemma power_sign_finite h_in h_out_s eta mf :
  is_finite h_in = true -> is_finite mf = true -> is_finite eta = true ->
  (h_in <=? h_out_s)%float = true ->
  (0 <? mf)%float = true -> (0 <? eta)%float = true ->
  (0 <=? mf * (h_in + (h_out_s - h_in) / eta - h_in))%float = true.
Proof.
  intros Fh Fm Fe Hle Hm He0.
  pose proof (is_finite_fin h_in Fh) as Fhi.
  pose proof (ltb_zero_positive mf Hm Fm) as Pm.
  pose proof (enthalpy_rise h_in h_out_s eta Fh Fe Hle He0) as HO.
  rewrite FloatAxioms.leb_spec in HO.
  assert (D2 : nonneg (Prim2SF (h_in + (h_out_s - h_in) / eta - h_in)%float)).
  { rewrite FloatAxioms.sub_spec. apply SFsub_nonneg; try apply Prim2SF_valid; try assumption.
    apply (SFleb_fin_or_inf _ _ Fhi HO). }
  apply leb_zero_nonneg. rewrite FloatAxioms.mul_spec. apply SFmul_nonneg; assumption.
Qed.

End Binary64.

(** ** Symbolic execution of the methods *)

Lemma wp_run {A} (m : M A) σ Q : wp m σ Q → ∀ σ' r, m σ = (σ', r) → Q σ' r.
Proof. unfold wp. intros H σ' r E. rewrite E in H. exact H. Qed.

Lemma wp_run_ok {A} (m : M A) σ (P : obj → Prop) a σ' :
  wp m σ (λ σ' r, r = inr a → P σ') → m σ = (σ', inr a) → P σ'.
Proof. intros H E. exact (wp_run m σ _ H σ' (inr a) E eq_refl). Qed.

Lemma wp_bind {A B} (m : M A) (k : A → M B) σ Q :
  wp m σ (λ σ1 r,
    match r with inr a => wp (k a) σ1 Q | inl e => Q σ1 (inl e) end) →
  wp (m ≫= k) σ Q.
Proof.
  unfold wp, mbind, M_bind. destruct (m σ) as [σ1 [e|a]]; simpl; auto.
Qed.

Lemma wp_ret {A} (a : A) σ (Q : obj → exn + A → Prop) :
  Q σ (inr a) → wp (mret a) σ Q.
Proof. exact id. Qed.

Lemma wp_lift {A} (r : exn + A) σ (Q : obj → exn + A → Prop) :
  Q σ r → wp (lift r) σ Q.
Proof. exact id. Qed.

Lemma wp_setattr name v σ (Q : obj → exn + unit → Prop) :
  Q (<[name := v]> σ) (inr tt) → wp (setattr name v) σ Q.
Proof. exact id. Qed.

Lemma wp_setattr_same name v σ (Q : obj → exn + unit → Prop) :
  σ !! name = Some v → Q σ (inr tt) → wp (setattr name v) σ Q.
Proof.
  intros E H. change (Q (<[name := v]> σ) (inr tt)).
  rewrite (insert_id σ name v E). exact H.
Qed.

Lemma wp_getattr name σ (Q : obj → exn + value → Prop) o :
  σ !! name = o →
  match o with
  | Some v => Q σ (inr v)
  | None => Q σ (inl (AttributeError name))
  end → wp (getattr name) σ Q.
Proof. intros <-. unfold wp, getattr. destruct (σ !! name); exact id. Qed.

Lemma wp_getfloat name σ (Q : obj → exn + float → Prop) o :
  σ !! name = o →
  match o with
  | Some (VFloat x) => Q σ (inr x)
  | Some (VStr _) => Q σ (inl TypeError)
  | None => Q σ (inl (AttributeError name))
  end → wp (getfloat name) σ Q.
Proof.
  intros <-. unfold wp, getfloat, getattr, mbind, M_bind.
  destruct (σ !! name) as [[x|s]|]; exact id.
Qed.

Lemma wp_getstr name σ (Q : obj → exn + string → Prop) o :
  σ !! name = o →
  match o with
  | Some (VStr s) => Q σ (inr s)
  | Some (VFloat _) => Q σ (inl TypeError)
  | None => Q σ (inl (AttributeError name))
  end → wp (getstr name) σ Q.
Proof.
  intros <-. unfold wp, getstr, getattr, mbind, M_bind.
  destruct (σ !! name) as [[x|s]|]; exact id.
Qed.

Lemma wp_fdiv x y σ (Q : obj → exn + float → Prop) r :
  fdiv x y = r → Q σ r → wp (lift (fdiv x y)) σ Q.
Proof. intros <-. exact id. Qed.

Lemma wp_CP_PropsSI PropsSI out n1 v1 n2 v2 fluid σ
    (Q : obj → exn + float → Prop) o :
  PropsSI out n1 v1 n2 v2 fluid = o →
  match o with
  | Some x => Q σ (inr x)
  | None => Q σ (inl ValueError)
  end → wp (CP_PropsSI PropsSI out n1 v1 n2 v2 fluid) σ Q.
Proof. intros <-. unfold wp, CP_PropsSI. destruct PropsSI; exact id. Qed.

Lemma wp_pow float_pow x n σ (Q : obj → exn + float → Prop) o :
  float_pow x n = o →
  match o with
  | Some y => Q σ (inr y)
  | None => Q σ (inl OverflowError)
  end → wp (pow float_pow x n) σ Q.
Proof. intros <-. unfold wp, pow. destruct float_pow; exact id. Qed.

(** Dividing by the literal [1000] never raises. *)
Lemma fdiv_1000 x : fdiv x 1000 = inr (x / 1000)%float.
Proof. reflexivity. Qed.

Lemma fdiv_nonzero x y : (y =? 0)%float = false → fdiv x y = inr (x / y)%float.
Proof. unfold fdiv. intros ->. reflexivity. Qed.

(** One step: peel the first statement off the sequence; what it examines
    (an attribute, a backend answer, a quotient) is looked up through the
    assignments made so far and in the context, and the run branches on it
    when neither determines it. *)
Ltac wp_lookup :=
  repeat first
    [ rewrite lookup_insert_eq
    | rewrite lookup_insert_ne by done
    | rewrite lookup_empty ].

Ltac wp_known :=
  wp_lookup; first [ eassumption | apply fdiv_1000 | exact eq_refl ].

Ltac wp_prim :=
  first
    [ apply wp_setattr
    | eapply wp_getfloat; [ wp_known | ]
    | eapply wp_getstr; [ wp_known | ]
    | eapply wp_getattr; [ wp_known | ]
    | eapply wp_fdiv; [ wp_known | ]
    | eapply wp_CP_PropsSI; [ wp_known | ]
    | eapply wp_pow; [ wp_known | ]
    | apply wp_lift
    | apply wp_ret ].

Ltac wp_case :=
  cbv beta iota;
  repeat
    (lazymatch goal with
     | |- match ?x with _ => _ end =>
         lazymatch x with
         | Some _ => fail
         | None => fail
         | inr _ => fail
         | inl _ => fail
         | VFloat _ => fail
         | VStr _ => fail
         | _ => let E := fresh "E" in destruct x eqn:E
         end
     end;
     cbv beta iota).

Ltac wp_step :=
  lazymatch goal with
  | |- wp (_ ≫= _) _ _ => apply wp_bind; wp_prim; wp_case
  | |- wp _ _ _ => wp_prim; wp_case
  end.

Ltac wp_start :=
  lazymatch goal with
  | |- ∀ σ' r, ?m ?σ = (σ', r) → @?Q σ' r => apply (wp_run m σ Q)
  end.

Ltac wp_ok :=
  lazymatch goal with
  | |- ∀ σ', ?m ?σ = (σ', inr ?a) → @?P σ' => intros σ'; apply (wp_run_ok m σ P a)
  end.

Ltac wp_run := repeat wp_step; cbv beta iota.

Lemma wp_eq {A} (m : M A) σ (x : obj * (exn + A)) :
  wp m σ (λ σ' r, (σ', r) = x) → m σ = x.
Proof. unfold wp. destruct (m σ). exact id. Qed.

(** The second of two runs: an assignment that stores what the attribute
    already holds leaves the object as it is. *)
Ltac wp_step_again :=
  lazymatch goal with
  | |- wp (setattr _ _ ≫= _) _ _ =>
      apply wp_bind;
      first [ apply wp_setattr_same; [ wp_lookup; exact eq_refl | ]
            | apply wp_setattr ];
      wp_case
  | |- wp (setattr _ _) _ _ =>
      first [ apply wp_setattr_same; [ wp_lookup; exact eq_refl | ]
            | apply wp_setattr ];
      wp_case
  | |- _ => wp_step
  end.

(** ** Which attributes a computation can change *)

Lemma preserves_bind {A B} S (m : M A) (k : A → M B) :
  preserves S m → (∀ a, preserves S (k a)) → preserves S (m ≫= k).
Proof.
  intros Hm Hk σ name Hn. specialize (Hm σ name Hn).
  unfold mbind, M_bind. destruct (m σ) as [σ1 [e|a]]; simpl in *; [done|].
  rewrite Hk; done.
Qed.

Lemma preserves_setattr S name v : name ∈ S → preserves S (setattr name v).
Proof.
  intros Hin σ n Hn. simpl. apply lookup_insert_ne. intros ->. done.
Qed.

Lemma preserves_getattr S name : preserves S (getattr name).
Proof. intros σ n _. unfold getattr. destruct (σ !! name); done. Qed.

Lemma preserves_lift {A} S (r : exn + A) : preserves S (lift r).
Proof. done. Qed.

Lemma preserves_getfloat S name : preserves S (getfloat name).
Proof.
  apply preserves_bind; [apply preserves_getattr | intros; apply preserves_lift].
Qed.

Lemma preserves_getstr S name : preserves S (getstr name).
Proof.
  apply preserves_bind; [apply preserves_getattr | intros; apply preserves_lift].
Qed.

Lemma preserves_CP_PropsSI S PropsSI out n1 v1 n2 v2 fluid :
  preserves S (CP_PropsSI PropsSI out n1 v1 n2 v2 fluid).
Proof. intros σ n _. unfold CP_PropsSI. destruct PropsSI; done. Qed.

Lemma preserves_pow S float_pow x n : preserves S (pow float_pow x n).
Proof. intros σ m _. unfold pow. destruct float_pow; done. Qed.

Ltac in_list := repeat first [ apply list_elem_of_here | apply list_elem_of_further ].

Ltac not_in_list :=
  let H := fresh in
  intros H;
  repeat (apply elem_of_cons in H as [H|H]; [discriminate H|]);
  by apply elem_of_nil in H.

Ltac preserves_tac :=
  repeat (apply preserves_bind; [ | intros ? ]);
  first
    [ apply preserves_getfloat
    | apply preserves_getstr
    | apply preserves_getattr
    | apply preserves_lift
    | apply preserves_CP_PropsSI
    | apply preserves_pow
    | apply preserves_setattr; in_list ].

Lemma power_preserves PropsSI eta_iP :
  preserves power_attrs (power PropsSI eta_iP).
Proof. unfold power. preserves_tac. Qed.

Lemma off_design_preserves PropsSI float_pow T_in_off p_in_off p_out_off mf_off :
  preserves off_design_attrs
    (off_design PropsSI float_pow T_in_off p_in_off p_out_off mf_off).
Proof. unfold off_design. preserves_tac. Qed.

(** ** Which attributes a computation depends on *)

Lemma assign_app l2 l1 σ : assign (l2 ++ l1)%list σ = assign l2 (assign l1 σ).
Proof. unfold assign. apply foldr_app. Qed.

Lemma lookup_assign_in l σ1 σ2 k :
  k ∈ l.*1 → assign l σ1 !! k = assign l σ2 !! k.
Proof.
  induction l as [|[k' v'] l IH]; simpl; intros H.
  - by apply elem_of_nil in H.
  - destruct (decide (k' = k)) as [->|Hne].
    + rewrite !lookup_insert_eq. reflexivity.
    + rewrite !lookup_insert_ne by done. apply IH.
      apply elem_of_cons in H as [H|H]; [congruence|exact H].
Qed.

Lemma lookup_assign_out l σ k : k ∉ l.*1 → assign l σ !! k = σ !! k.
Proof.
  induction l as [|[k' v'] l IH]; simpl; intros H; [reflexivity|].
  apply not_elem_of_cons in H as [H1 H2].
  rewrite lookup_insert_ne by done. apply IH, H2.
Qed.

(** Making the same assignments a second time changes nothing. *)
Lemma assign_idemp l σ : assign l (assign l σ) = assign l σ.
Proof.
  apply map_eq. intros k. destruct (decide (k ∈ l.*1)) as [Hin|Hout].
  - apply lookup_assign_in, Hin.
  - apply lookup_assign_out, Hout.
Qed.

Lemma agree_on_insert S σ1 σ2 k v :
  agree_on S σ1 σ2 → agree_on (k :: S) (<[k := v]> σ1) (<[k := v]> σ2).
Proof.
  intros H name Hn. destruct (decide (k = name)) as [->|Hne].
  - rewrite !lookup_insert_eq. reflexivity.
  - rewrite !lookup_insert_ne by done. apply H.
    apply elem_of_cons in Hn as [Hn|Hn]; [congruence|exact Hn].
Qed.

Lemma sim_pure {A} S (m : M A) r : (∀ σ, m σ = (σ, r)) → sim S S m.
Proof.
  intros Hm σ1 σ2 H. rewrite !Hm. simpl. split; [reflexivity|]. split.
  - exists []. split; reflexivity.
  - intros _ _. exact H.
Qed.

Lemma sim_lift {A} S (r : exn + A) : sim S S (lift r).
Proof. by apply (sim_pure S _ r). Qed.

Lemma sim_CP_PropsSI S PropsSI out n1 v1 n2 v2 fluid :
  sim S S (CP_PropsSI PropsSI out n1 v1 n2 v2 fluid).
Proof.
  unfold CP_PropsSI. destruct PropsSI as [x|].
  - by apply (sim_pure S _ (inr x)).
  - by apply (sim_pure S _ (inl ValueError)).
Qed.

Lemma sim_pow S float_pow x n : sim S S (pow float_pow x n).
Proof.
  unfold pow. destruct float_pow as [y|].
  - by apply (sim_pure S _ (inr y)).
  - by apply (sim_pure S _ (inl OverflowError)).
Qed.

Lemma sim_setattr S name v : sim S (name :: S) (setattr name v).
Proof.
  intros σ1 σ2 H. simpl. split; [reflexivity|]. split.
  - exists [(name, v)]. split; reflexivity.
  - intros _ _. by apply agree_on_insert.
Qed.

Lemma sim_getattr S name : name ∈ S → sim S S (getattr name).
Proof.
  intros Hin σ1 σ2 H. unfold getattr. rewrite (H name Hin).
  destruct (σ2 !! name); simpl; (split; [reflexivity|]);
    (split; [exists []; split; reflexivity|]); intros _ _; exact H.
Qed.

Lemma sim_bind {A B} S S1 S2 (m : M A) (k : A → M B) :
  sim S S1 m → (∀ a, sim S1 S2 (k a)) → sim S S2 (m ≫= k).
Proof.
  intros Hm Hk σ1 σ2 H. destruct (Hm σ1 σ2 H) as (Hr & (l & E1 & E2) & Ha).
  unfold mbind, M_bind.
  destruct (m σ1) as [σ1' [e|a]], (m σ2) as [σ2' r2]; simpl in *; subst r2.
  - split; [reflexivity|]. split; [exists l; split; assumption|]. discriminate.
  - destruct (Hk a _ _ (Ha a eq_refl)) as (Hr' & (l' & E1' & E2') & Ha').
    split; [exact Hr'|]. split; [|exact Ha'].
    exists (l' ++ l)%list. rewrite !assign_app. subst σ1' σ2'. split; assumption.
Qed.

Lemma sim_getfloat S name : name ∈ S → sim S S (getfloat name).
Proof.
  intros H. eapply sim_bind; [apply sim_getattr, H | intros; apply sim_lift].
Qed.

Lemma sim_getstr S name : name ∈ S → sim S S (getstr name).
Proof.
  intros H. eapply sim_bind; [apply sim_getattr, H | intros; apply sim_lift].
Qed.

(** Statement by statement: a read must be of an attribute the two objects
    agree on, an assignment adds its attribute to those. *)
Ltac sim_prim :=
  first
    [ apply sim_setattr
    | apply sim_getfloat; in_list
    | apply sim_getstr; in_list
    | apply sim_getattr; in_list
    | apply sim_lift
    | apply sim_CP_PropsSI
    | apply sim_pow ].

Ltac sim_tac :=
  lazymatch goal with
  | |- sim _ _ (_ ≫= _) => eapply sim_bind; [ sim_prim | intros ?; sim_tac ]
  | |- sim _ _ _ => sim_prim
  end.

Lemma power_sim PropsSI eta_iP :
  sim power_inputs (rev power_attrs ++ power_inputs)%list (power PropsSI eta_iP).
Proof. unfold power. sim_tac. Qed.

Lemma off_design_sim PropsSI float_pow T_in_off p_in_off p_out_off mf_off :
  sim off_design_inputs (rev off_design_attrs ++ off_design_inputs)%list
    (off_design PropsSI float_pow T_in_off p_in_off p_out_off mf_off).
Proof. unfold off_design. sim_tac. Qed.

(** A computation that reads of the attributes it assigns only what it
    has assigned before can be repeated: the second run changes nothing. *)
Lemma sim_idempotent {A} S S' W (m : M A) :
  sim S S' m → preserves W m → (∀ name, name ∈ S → name ∉ W) →
  ∀ σ, m (m σ).1 = m σ.
Proof.
  intros Hs Hp Hd σ.
  assert (Ha : agree_on S σ (m σ).1).
  { intros name Hn. symmetry. apply Hp, Hd, Hn. }
  destruct (Hs _ _ Ha) as (Hr & (l & E1 & E2) & _).
  rewrite E1 in E2 at 2. rewrite assign_idemp, <- E1 in E2.
  destruct (m (m σ).1) as [σ2 r2], (m σ) as [σ1 r1]. simpl in *. congruence.
Qed.

(** A normal run of [m2] ends in the same object whether or not [m1],
    which assigns the same attributes, ran before it. *)
Lemma sim_last_wins {A} S S' W (m1 m2 : M A) :
  sim S S' m2 → preserves W m1 → preserves W m2 →
  (∀ name, name ∈ S → name ∉ W) → (∀ name, name ∈ W → name ∈ S') →
  ∀ σ σ2 a, m2 σ = (σ2, inr a) → m2 (m1 σ).1 = (σ2, inr a).
Proof.
  intros Hs Hp1 Hp2 Hd Hw σ σ2 a E.
  assert (Ha : agree_on S σ (m1 σ).1).
  { intros name Hn. symmetry. apply Hp1, Hd, Hn. }
  destruct (Hs _ _ Ha) as (Hr & _ & Hag).
  rewrite E in Hr, Hag. simpl in Hr, Hag. specialize (Hag a eq_refl).
  pose proof (Hp2 (m1 σ).1) as Hq2. pose proof (Hp2 σ) as Hq. rewrite E in Hq. simpl in Hq.
  destruct (m2 (m1 σ).1) as [σ3 r3]. simpl in *. subst r3. f_equal.
  apply map_eq. intros name. destruct (decide (name ∈ W)) as [Hin|Hout].
  - symmetry. apply Hag, Hw, Hin.
  - rewrite Hq2, Hq by exact Hout. apply Hp1, Hout.
Qed.

Lemma power_inputs_kept name : name ∈ power_inputs → name ∉ power_attrs.
Proof.
  intros H. unfold power_inputs in H.
  repeat (apply elem_of_cons in H as [->|H]; [not_in_list|]). by apply elem_of_nil in H.
Qed.

Lemma off_design_inputs_kept name : name ∈ off_design_inputs → name ∉ off_design_attrs.
Proof.
  intros H. unfold off_design_inputs in H.
  repeat (apply elem_of_cons in H as [->|H]; [not_in_list|]). by apply elem_of_nil in H.
Qed.

Lemma power_attrs_assigned name :
  name ∈ power_attrs → name ∈ (rev power_attrs ++ power_inputs)%list.
Proof. intros H. apply elem_of_app. left. apply elem_of_reverse. exact H. Qed.

Lemma off_design_attrs_assigned name :
  name ∈ off_design_attrs → name ∈ (rev off_design_attrs ++ off_design_inputs)%list.
Proof. intros H. apply elem_of_app. left. apply elem_of_reverse. exact H. Qed.

(** A quotient that a run has branched on: which branch it is says whether
    the divisor was zero. *)
Ltac fdiv_inv :=
  repeat match goal with
  | E : fdiv _ ?y = _ |- _ =>
      unfold fdiv in E;
      let N := fresh "N" in
      destruct (y =? 0)%float eqn:N; inversion E; subst; clear E
  end.

(** A run that raised: what it left and what it raised. *)
Lemma wp_run_err {A} (m : M A) σ (P : obj → exn → Prop) σ' e :
  wp m σ (λ σ' r, match r with inl e => P σ' e | inr _ => True end) →
  m σ = (σ', inl e) → P σ' e.
Proof. unfold wp. intros H E. rewrite E in H. exact H. Qed.

Lemma wp_pair {A} (m : M A) σ (P : obj * (exn + A) → Prop) :
  wp m σ (λ σ' r, P (σ', r)) → P (m σ).
Proof. unfold wp. destruct (m σ). exact id. Qed.

Ltac wp_err :=
  lazymatch goal with
  | |- ∀ σ' e, ?m ?σ = (σ', inl e) → @?P σ' e =>
      let Q := fresh "Q" in
      intros σ' e; pose (Q := P); apply (wp_run_err m σ Q)
  end.

Ltac wp_whole :=
  lazymatch goal with
  | |- ?P (?m ?σ) => refine (wp_pair m σ P _); cbv beta
  end.

(** Which statement failed: the first one of those left, or the first one
    passed and it is one of those after it. *)
Ltac fail_cond := first [ eassumption | reflexivity ].

Ltac fail_here := split; [ fail_cond | split; reflexivity ].

Ltac fail_point :=
  cbv zeta;
  first
    [ left; fail_here
    | right;
      first [ eexists; split; [ fail_cond | ] | split; [ fail_cond | ] ];
      fail_point
    | fail_here ].

(** ** The claims *)

Section Claims.
Variable PropsSI : string → string → float → string → float → string → option float.
Variable float_pow : float → Z → option float.

(** What a freshly constructed pump holds, as far as [off_design] cares. *)
Lemma Pump_fresh T_in p_in p_out mf medium σ :
  Pump PropsSI T_in p_in p_out mf medium = inr σ →
  σ !! "eta_iP" = None ∧ σ !! "medium" = Some (VStr medium) ∧
  ∃ V_in, σ !! "V_in" = Some (VFloat V_in).
Proof.
  unfold Pump.
  destruct (__init__ _ _ _ _ _ _ _) as [σ' r] eqn:E.
  revert σ' r E. wp_start. unfold __init__.
  wp_run; try discriminate.
  intros [= <-]. split; [|split; [|eexists]]; wp_lookup; exact eq_refl.
Qed.

(** [power] stores its argument first, and nothing later overwrites it. *)
Lemma power_sets_eta_iP eta_iP σ :
  (power PropsSI eta_iP σ).1 !! "eta_iP" = Some (VFloat eta_iP).
Proof.
  change (wp (power PropsSI eta_iP) σ
            (λ σ' _, σ' !! "eta_iP" = Some (VFloat eta_iP))).
  unfold power. wp_run; wp_lookup; exact eq_refl.
Qed.

(** Line 106, reached: with [eta_iP] set, the five off-design lookups
    answering, no zero divisor and the two powers in range, the run assigns
    [eta_iP_off], and the statements after it leave that value alone. *)
Lemma off_design_sets_eta_iP_off
    eta_iP σ medium V_in
    T_in_off p_in_off p_out_off mf_off h s h_s t_s rho r3 r2 :
  σ !! "eta_iP" = Some (VFloat eta_iP) →
  σ !! "medium" = Some (VStr medium) →
  σ !! "V_in" = Some (VFloat V_in) →
  PropsSI "Hmass" "T" (T_in_off + 273.15) "P" (p_in_off * 1000) medium = Some h →
  PropsSI "Smass" "T" (T_in_off + 273.15) "P" (p_in_off * 1000) medium = Some s →
  PropsSI "Hmass" "Smass" (s / 1000 * 1000) "P" (p_out_off * 1000) medium = Some h_s →
  PropsSI "T" "Smass" (s / 1000 * 1000) "P" (p_out_off * 1000) medium = Some t_s →
  PropsSI "Dmass" "Hmass" (h / 1000 * 1000) "P" (p_in_off * 1000) medium = Some rho →
  (rho =? 0)%float = false →
  (mf_off / rho =? 0)%float = false →
  float_pow (V_in / (mf_off / rho)) 3 = Some r3 →
  float_pow (V_in / (mf_off / rho)) 2 = Some r2 →
  wp (off_design PropsSI float_pow T_in_off p_in_off p_out_off mf_off) σ
    (λ σ' _,
      σ' !! "V_in" = Some (VFloat V_in) ∧
      σ' !! "V_in_off" = Some (VFloat (mf_off / rho)) ∧
      σ' !! "eta_iP" = Some (VFloat eta_iP) ∧
      σ' !! "eta_iP_off" =
        Some (VFloat ((-0.168 * r3 - 0.0336 * r2
                       + 0.6317 * (V_in / (mf_off / rho)) + 0.5699) * eta_iP))).
Proof.
  intros Heta Hmed HV Hh Hs Hhs Hts Hrho Hrho0 HV0 Hr3 Hr2.
  pose proof (fdiv_nonzero mf_off rho Hrho0) as Hd1.
  pose proof (fdiv_nonzero V_in (mf_off / rho) HV0) as Hd2.
  unfold off_design. wp_run; repeat split; wp_lookup; done.
Qed.

(** Without [eta_iP] the call cannot succeed, whatever the backend answers:
    either an earlier statement raises, or the read of [self.eta_iP] does. *)
Lemma off_design_needs_power T_in_off p_in_off p_out_off mf_off σ :
  σ !! "eta_iP" = None →
  (off_design PropsSI float_pow T_in_off p_in_off p_out_off mf_off σ).2 ≠ inr tt.
Proof.
  intros Heta.
  change (wp (off_design PropsSI float_pow T_in_off p_in_off p_out_off mf_off) σ
            (λ _ r, r ≠ inr tt)).
  unfold off_design. wp_run; discriminate.
Qed.

(** What a failing [power] leaves behind. *)
Lemma power_failure eta_iP σ σ' e :
  power PropsSI eta_iP σ = (σ', inl e) →
  σ' !! "eta_iP" = Some (VFloat eta_iP) ∧ σ' !! "N_iP" = σ !! "N_iP".
Proof.
  generalize (eq_refl (inl (B:=unit) e)).
  generalize (inl (B:=unit) e) at 1 3. intros r Hr E. revert σ' r E Hr.
  wp_start. unfold power. wp_run; try discriminate; intros _; split; wp_lookup; exact eq_refl.
Qed.

(** What a failing [off_design] leaves behind. *)
Lemma off_design_failure T_in_off p_in_off p_out_off mf_off σ σ' e :
  off_design PropsSI float_pow T_in_off p_in_off p_out_off mf_off σ = (σ', inl e) →
  σ' !! "T_in_off" = Some (VFloat T_in_off) ∧
  σ' !! "p_in_off" = Some (VFloat p_in_off) ∧
  σ' !! "p_out_off" = Some (VFloat p_out_off) ∧
  σ' !! "mf_off" = Some (VFloat mf_off) ∧
  σ' !! "N_iP_off" = σ !! "N_iP_off".
Proof.
  generalize (eq_refl (inl (B:=unit) e)).
  generalize (inl (B:=unit) e) at 1 3. intros r Hr E. revert σ' r E Hr.
  wp_start. unfold off_design.
  wp_run; try discriminate; intros _; repeat split; wp_lookup; exact eq_refl.
Qed.

(** C1. Once [power(eta_iP)] has run (whatever its outcome), when the five
    off-design lookups answer, the off-design density and flow are not zero
    and the two powers of the flow ratio [r = V_in / V_in_off] are in range,
    [off_design] stores in [eta_iP_off] the value
    [(-0.168*r**3 - 0.0336*r**2 + 0.6317*r + 0.5699) * eta_iP],
    whatever happens in the statements after that assignment. *)
Theorem C1_off_design_efficiency
    eta_iP σ0 σ medium V_in
    T_in_off p_in_off p_out_off mf_off h s h_s t_s rho r3 r2 :
  σ = (power PropsSI eta_iP σ0).1 →
  σ !! "medium" = Some (VStr medium) →
  σ !! "V_in" = Some (VFloat V_in) →
  PropsSI "Hmass" "T" (T_in_off + 273.15) "P" (p_in_off * 1000) medium = Some h →
  PropsSI "Smass" "T" (T_in_off + 273.15) "P" (p_in_off * 1000) medium = Some s →
  PropsSI "Hmass" "Smass" (s / 1000 * 1000) "P" (p_out_off * 1000) medium = Some h_s →
  PropsSI "T" "Smass" (s / 1000 * 1000) "P" (p_out_off * 1000) medium = Some t_s →
  PropsSI "Dmass" "Hmass" (h / 1000 * 1000) "P" (p_in_off * 1000) medium = Some rho →
  (rho =? 0)%float = false →
  (mf_off / rho =? 0)%float = false →
  float_pow (V_in / (mf_off / rho)) 3 = Some r3 →
  float_pow (V_in / (mf_off / rho)) 2 = Some r2 →
  let σ' := (off_design PropsSI float_pow T_in_off p_in_off p_out_off mf_off σ).1 in
  let r := (V_in / (mf_off / rho))%float in
  σ' !! "V_in" = Some (VFloat V_in) ∧
  σ' !! "V_in_off" = Some (VFloat (mf_off / rho)) ∧
  σ' !! "eta_iP" = Some (VFloat eta_iP) ∧
  σ' !! "eta_iP_off" =
    Some (VFloat ((-0.168 * r3 - 0.0336 * r2 + 0.6317 * r + 0.5699) * eta_iP)).
Proof.
  intros Hp Hmed HV Hh Hs Hhs Hts Hrho Hrho0 HV0 Hr3 Hr2.
  assert (Heta : σ !! "eta_iP" = Some (VFloat eta_iP)).
  { rewrite Hp. apply power_sets_eta_iP. }
  exact (off_design_sets_eta_iP_off _ _ _ _ _ _ _ _ _ _ _ _ _ _ _
           Heta Hmed HV Hh Hs Hhs Hts Hrho Hrho0 HV0 Hr3 Hr2).
Qed.

(** C2, as amended. When [V_in_off == V_in] (finite and not zero) the
    flow ratio is exactly 1, and (with [1 ** n = 1], as in Python) the cubic
    of line 106 evaluates in binary64 to exactly [1], not to 1.0180:
    [off_design] stores [eta_iP] itself in [eta_iP_off]. *)
Theorem C2_correction_at_design_flow
    eta_iP σ0 σ medium V_in
    T_in_off p_in_off p_out_off mf_off h s h_s t_s rho :
  σ = (power PropsSI eta_iP σ0).1 →
  σ !! "medium" = Some (VStr medium) →
  σ !! "V_in" = Some (VFloat V_in) →
  PropsSI "Hmass" "T" (T_in_off + 273.15) "P" (p_in_off * 1000) medium = Some h →
  PropsSI "Smass" "T" (T_in_off + 273.15) "P" (p_in_off * 1000) medium = Some s →
  PropsSI "Hmass" "Smass" (s / 1000 * 1000) "P" (p_out_off * 1000) medium = Some h_s →
  PropsSI "T" "Smass" (s / 1000 * 1000) "P" (p_out_off * 1000) medium = Some t_s →
  PropsSI "Dmass" "Hmass" (h / 1000 * 1000) "P" (p_in_off * 1000) medium = Some rho →
  (rho =? 0)%float = false →
  (mf_off / rho =? V_in)%float = true →
  is_finite V_in = true →
  (V_in =? 0)%float = false →
  float_pow 1 3 = Some 1%float →
  float_pow 1 2 = Some 1%float →
  let σ' := (off_design PropsSI float_pow T_in_off p_in_off p_out_off mf_off σ).1 in
  (-0.168 * 1 - 0.0336 * 1 + 0.6317 * 1 + 0.5699)%float = 1%float ∧
  σ' !! "V_in_off" = Some (VFloat V_in) ∧
  σ' !! "eta_iP_off" = Some (VFloat eta_iP).
Proof.
  intros Hp Hmed HV Hh Hs Hhs Hts Hrho Hrho0 Heq HF HV0 Hr3 Hr2 σ'.
  split; [reflexivity|].
  pose proof (Binary64.eqb_finite_eq _ _ HF HV0 Heq) as Hoff.
  assert (Heta : σ !! "eta_iP" = Some (VFloat eta_iP)).
  { rewrite Hp. apply power_sets_eta_iP. }
  assert (Hr : (V_in / (mf_off / rho))%float = 1%float).
  { rewrite Hoff. apply Binary64.div_self; assumption. }
  assert (HV0' : (mf_off / rho =? 0)%float = false) by (rewrite Hoff; exact HV0).
  assert (H3 : float_pow (V_in / (mf_off / rho)) 3 = Some 1%float)
    by (rewrite Hr; exact Hr3).
  assert (H2 : float_pow (V_in / (mf_off / rho)) 2 = Some 1%float)
    by (rewrite Hr; exact Hr2).
  destruct (off_design_sets_eta_iP_off _ _ _ _ _ _ _ _ _ _ _ _ _ _ _
    Heta Hmed HV Hh Hs Hhs Hts Hrho Hrho0 HV0' H3 H2) as (_ & Ho & _ & H).
  subst σ'. rewrite Ho, H, Hr, Hoff.
  change (-0.168 * 1 - 0.0336 * 1 + 0.6317 * 1 + 0.5699)%float with 1%float.
  rewrite Binary64.mul_one. split; exact eq_refl.
Qed.

(** C3. After a successful construction the attribute [s_out_s] holds the
    very value of [s_in]: line 45 copies it. *)
Theorem C3_isentropic_identity T_in p_in p_out mf medium σ :
  Pump PropsSI T_in p_in p_out mf medium = inr σ →
  ∃ s, σ !! "s_in" = Some (VFloat s) ∧ σ !! "s_out_s" = Some (VFloat s).
Proof.
  unfold Pump.
  destruct (__init__ _ _ _ _ _ _ _) as [σ' r] eqn:E.
  revert σ' r E. wp_start. unfold __init__.
  wp_run; try discriminate.
  intros [= <-]. eexists. split; wp_lookup; exact eq_refl.
Qed.

(** C4, as amended. With [eta_iP = 1.0] a successful [power] stores
    [h_out = h_in + (h_out_s - h_in)] computed in binary64 (dividing by 1.0
    changes nothing). That is [h_out_s] itself when [h_in] is positive, not
    above [h_out_s], and larger than the computed rise [h_out_s - h_in]; in
    general it is [h_out_s] only up to rounding. *)
Theorem C4_ideal_efficiency σ σ' :
  power PropsSI 1 σ = (σ', inr tt) →
  ∃ h_in h_out_s,
    σ' !! "h_in" = Some (VFloat h_in) ∧
    σ' !! "h_out_s" = Some (VFloat h_out_s) ∧
    σ' !! "h_out" = Some (VFloat (h_in + (h_out_s - h_in))) ∧
    ((0 <? h_in)%float = true →
     (h_in <=? h_out_s)%float = true →
     (h_out_s - h_in <? h_in)%float = true →
     σ' !! "h_out" = Some (VFloat h_out_s)).
Proof.
  revert σ'. wp_ok. unfold power. wp_run; try discriminate.
  intros _.
  match goal with H : fdiv _ _ = inr _ |- _ =>
    unfold fdiv in H; cbn in H; injection H as <- end.
  rewrite Binary64.div_one.
  do 2 eexists. split; [|split; [|split]]; wp_lookup; try eassumption.
  - exact eq_refl.
  - intros H0 Hle Hlt. rewrite Binary64.add_sub_exact by assumption. exact eq_refl.
Qed.

(** C5. After a successful [power(eta_iP)] the attribute [N_iP] holds the
    binary64 product [mf * (h_out - h_in)] of the attributes as they are
    then. *)
Theorem C5_energy_balance eta_iP σ σ' :
  power PropsSI eta_iP σ = (σ', inr tt) →
  ∃ mf h_out h_in,
    σ' !! "mf" = Some (VFloat mf) ∧
    σ' !! "h_out" = Some (VFloat h_out) ∧
    σ' !! "h_in" = Some (VFloat h_in) ∧
    σ' !! "N_iP" = Some (VFloat (mf * (h_out - h_in))).
Proof.
  revert σ'. wp_ok. unfold power. wp_run; try discriminate.
  intros _. do 3 eexists. repeat split; wp_lookup; try eassumption; exact eq_refl.
Qed.

(** C6, as amended. For a pump whose [h_in] and [mf] are finite, with
    [h_in <= h_out_s], [mf > 0] and [eta_iP] in (0, 1], a successful
    [power(eta_iP)] stores an [N_iP] that is [>= 0] (possibly [+inf], never
    NaN). *)
Theorem C6_power_nonnegative eta_iP σ σ' h_in h_out_s mf :
  σ !! "h_in" = Some (VFloat h_in) →
  σ !! "h_out_s" = Some (VFloat h_out_s) →
  σ !! "mf" = Some (VFloat mf) →
  is_finite h_in = true →
  is_finite mf = true →
  (h_in <=? h_out_s)%float = true →
  (0 <? mf)%float = true →
  (0 <? eta_iP)%float = true →
  (eta_iP <=? 1)%float = true →
  power PropsSI eta_iP σ = (σ', inr tt) →
  ∃ N_iP, σ' !! "N_iP" = Some (VFloat N_iP) ∧ (0 <=? N_iP)%float = true.
Proof.
  intros Hh Hs Hm Fh Fm Hle Hmf He0 He1. revert σ'. wp_ok. unfold power.
  wp_run; try discriminate. intros _.
  match goal with H : fdiv _ _ = inr _ |- _ =>
    unfold fdiv in H; destruct (eta_iP =? 0)%float; [discriminate H|];
    injection H as <- end.
  eexists. split; [wp_lookup; exact eq_refl|].
  apply Binary64.power_sign; assumption.
Qed.

(** C7. [off_design] assigns only the sixteen off-design attributes:
    whatever its outcome, every other attribute, and in particular each of
    the seventeen design-point attributes, holds what it held before the
    call (or is still unset). *)
Theorem C7_off_design_frame T_in_off p_in_off p_out_off mf_off σ :
  let σ' := (off_design PropsSI float_pow T_in_off p_in_off p_out_off mf_off σ).1 in
  (∀ name, name ∉ off_design_attrs → σ' !! name = σ !! name) ∧
  Forall (λ name, σ' !! name = σ !! name) design_attrs.
Proof.
  intros σ'. assert (H : ∀ name, name ∉ off_design_attrs → σ' !! name = σ !! name).
  { intros name Hn. apply off_design_preserves, Hn. }
  split; [exact H|].
  unfold design_attrs, power_attrs. simpl.
  repeat constructor; apply H; not_in_list.
Qed.

(** C8, as amended. An exception passes through unchanged and nothing is
    rolled back. A failing construction gives the caller the exception of
    the failing statement and no object; the object under construction
    holds what the statements before the failing one assigned. A failing
    [power] or [off_design] leaves the object with exactly the assignments
    of the statements before the failing one: on an object that holds what
    the method reads, the failing line, its exception and the object it
    leaves are listed line by line ([σ79] is the object after line 79, and
    so on). On any object the first assignments of the method are kept, the
    attribute of its last statement ([N_iP], [N_iP_off]) is as before the
    call, and no attribute outside the method's own is touched. *)
Theorem C8_failure_keeps_prefix :
  (∀ T_in p_in p_out mf medium σ' e,
     __init__ PropsSI T_in p_in p_out mf medium ∅ = (σ', inl e) →
     Pump PropsSI T_in p_in p_out mf medium = inl e ∧
     let σ23 :=
       <["medium" := VStr medium]> (<["mf" := VFloat mf]> (<["p_out" := VFloat p_out]>
         (<["p_in" := VFloat p_in]> (<["T_in" := VFloat T_in]> ∅)))) in
     (* line 41 *)
     (PropsSI "Hmass" "T" (T_in + 273.15) "P" (p_in * 1000) medium = None ∧
      e = ValueError ∧ σ' = σ23) ∨
     ∃ h, PropsSI "Hmass" "T" (T_in + 273.15) "P" (p_in * 1000) medium = Some h ∧
     let σ41 := <["h_in" := VFloat (h / 1000)]> σ23 in
     (* line 42 *)
     ((PropsSI "Smass" "T" (T_in + 273.15) "P" (p_in * 1000) medium = None ∧
       e = ValueError ∧ σ' = σ41) ∨
     ∃ s, PropsSI "Smass" "T" (T_in + 273.15) "P" (p_in * 1000) medium = Some s ∧
     let σ45 :=
       <["s_out_s" := VFloat (s / 1000)]> (<["s_in" := VFloat (s / 1000)]> σ41) in
     (* line 46 *)
     ((PropsSI "Hmass" "Smass" (s / 1000 * 1000) "P" (p_out * 1000) medium = None ∧
       e = ValueError ∧ σ' = σ45) ∨
     ∃ h_s, PropsSI "Hmass" "Smass" (s / 1000 * 1000) "P" (p_out * 1000) medium = Some h_s ∧
     let σ46 := <["h_out_s" := VFloat (h_s / 1000)]> σ45 in
     (* line 47 *)
     ((PropsSI "T" "Smass" (s / 1000 * 1000) "P" (p_out * 1000) medium = None ∧
       e = ValueError ∧ σ' = σ46) ∨
     ∃ t_s, PropsSI "T" "Smass" (s / 1000 * 1000) "P" (p_out * 1000) medium = Some t_s ∧
     let σ47 := <["T_out_s" := VFloat (t_s - 273.15)]> σ46 in
     (* line 49 *)
     ((PropsSI "Dmass" "Hmass" (h / 1000 * 1000) "P" (p_in * 1000) medium = None ∧
       e = ValueError ∧ σ' = σ47) ∨
     ∃ rho, PropsSI "Dmass" "Hmass" (h / 1000 * 1000) "P" (p_in * 1000) medium = Some rho ∧
     (* line 50 *)
     (rho =? 0)%float = true ∧ e = ZeroDivisionError ∧
     σ' = <["rho_in" := VFloat rho]> σ47))))) ∧
  (∀ eta_iP σ σ' e,
     power PropsSI eta_iP σ = (σ', inl e) →
     σ' !! "eta_iP" = Some (VFloat eta_iP) ∧
     σ' !! "N_iP" = σ !! "N_iP" ∧
     ∀ name, name ∉ power_attrs → σ' !! name = σ !! name) ∧
  (∀ eta_iP σ σ' e h_in h_out_s p_out medium mf,
     σ !! "h_in" = Some (VFloat h_in) →
     σ !! "h_out_s" = Some (VFloat h_out_s) →
     σ !! "p_out" = Some (VFloat p_out) →
     σ !! "medium" = Some (VStr medium) →
     σ !! "mf" = Some (VFloat mf) →
     power PropsSI eta_iP σ = (σ', inl e) →
     let h_out := (h_in + (h_out_s - h_in) / eta_iP)%float in
     let σ78 := <["eta_iP" := VFloat eta_iP]> σ in
     let σ79 := <["h_out" := VFloat h_out]> σ78 in
     (* line 79 *)
     ((eta_iP =? 0)%float = true ∧ e = ZeroDivisionError ∧ σ' = σ78) ∨
     (eta_iP =? 0)%float = false ∧
     (* line 80 *)
     ((PropsSI "T" "Hmass" (h_out * 1000) "P" (p_out * 1000) medium = None ∧
       e = ValueError ∧ σ' = σ79) ∨
     ∃ t, PropsSI "T" "Hmass" (h_out * 1000) "P" (p_out * 1000) medium = Some t ∧
     (* line 81 *)
     PropsSI "Smass" "T" (t - 273.15 + 273.15) "P" (p_out * 1000) medium = None ∧
     e = ValueError ∧ σ' = <["T_out" := VFloat (t - 273.15)]> σ79)) ∧
  (∀ T_in_off p_in_off p_out_off mf_off σ σ' e,
     off_design PropsSI float_pow T_in_off p_in_off p_out_off mf_off σ = (σ', inl e) →
     σ' !! "T_in_off" = Some (VFloat T_in_off) ∧
     σ' !! "p_in_off" = Some (VFloat p_in_off) ∧
     σ' !! "p_out_off" = Some (VFloat p_out_off) ∧
     σ' !! "mf_off" = Some (VFloat mf_off) ∧
     σ' !! "N_iP_off" = σ !! "N_iP_off" ∧
     ∀ name, name ∉ off_design_attrs → σ' !! name = σ !! name) ∧
  (∀ T_in_off p_in_off p_out_off mf_off σ σ' e medium V_in eta_iP,
     σ !! "medium" = Some (VStr medium) →
     σ !! "V_in" = Some (VFloat V_in) →
     σ !! "eta_iP" = Some (VFloat eta_iP) →
     off_design PropsSI float_pow T_in_off p_in_off p_out_off mf_off σ = (σ', inl e) →
     let σ94 :=
       <["mf_off" := VFloat mf_off]> (<["p_out_off" := VFloat p_out_off]>
         (<["p_in_off" := VFloat p_in_off]> (<["T_in_off" := VFloat T_in_off]> σ))) in
     (* line 96 *)
     (PropsSI "Hmass" "T" (T_in_off + 273.15) "P" (p_in_off * 1000) medium = None ∧
      e = ValueError ∧ σ' = σ94) ∨
     ∃ h, PropsSI "Hmass" "T" (T_in_off + 273.15) "P" (p_in_off * 1000) medium = Some h ∧
     let σ96 := <["h_in_off" := VFloat (h / 1000)]> σ94 in
     (* line 97 *)
     ((PropsSI "Smass" "T" (T_in_off + 273.15) "P" (p_in_off * 1000) medium = None ∧
       e = ValueError ∧ σ' = σ96) ∨
     ∃ s, PropsSI "Smass" "T" (T_in_off + 273.15) "P" (p_in_off * 1000) medium = Some s ∧
     let σ99 :=
       <["s_out_s_off" := VFloat (s / 1000)]> (<["s_in_off" := VFloat (s / 1000)]> σ96) in
     (* line 100 *)
     ((PropsSI "Hmass" "Smass" (s / 1000 * 1000) "P" (p_out_off * 1000) medium = None ∧
       e = ValueError ∧ σ' = σ99) ∨
     ∃ h_s,
       PropsSI "Hmass" "Smass" (s / 1000 * 1000) "P" (p_out_off * 1000) medium = Some h_s ∧
     let σ100 := <["h_out_s_off" := VFloat (h_s / 1000)]> σ99 in
     (* line 101 *)
     ((PropsSI "T" "Smass" (s / 1000 * 1000) "P" (p_out_off * 1000) medium = None ∧
       e = ValueError ∧ σ' = σ100) ∨
     ∃ t_s,
       PropsSI "T" "Smass" (s / 1000 * 1000) "P" (p_out_off * 1000) medium = Some t_s ∧
     let σ101 := <["T_out_s_off" := VFloat (t_s - 273.15)]> σ100 in
     (* line 103 *)
     ((PropsSI "Dmass" "Hmass" (h / 1000 * 1000) "P" (p_in_off * 1000) medium = None ∧
       e = ValueError ∧ σ' = σ101) ∨
     ∃ rho,
       PropsSI "Dmass" "Hmass" (h / 1000 * 1000) "P" (p_in_off * 1000) medium = Some rho ∧
     let σ103 := <["rho_in_off" := VFloat rho]> σ101 in
     (* line 104 *)
     (((rho =? 0)%float = true ∧ e = ZeroDivisionError ∧ σ' = σ103) ∨
     (rho =? 0)%float = false ∧
     let σ104 := <["V_in_off" := VFloat (mf_off / rho)]> σ103 in
     let r := (V_in / (mf_off / rho))%float in
     (* line 106 *)
     (((mf_off / rho =? 0)%float = true ∧ e = ZeroDivisionError ∧ σ' = σ104) ∨
     (mf_off / rho =? 0)%float = false ∧
     ((float_pow r 3 = None ∧ e = OverflowError ∧ σ' = σ104) ∨
     ∃ r3, float_pow r 3 = Some r3 ∧
     ((float_pow r 2 = None ∧ e = OverflowError ∧ σ' = σ104) ∨
     ∃ r2, float_pow r 2 = Some r2 ∧
     let eta_off := ((-0.168 * r3 - 0.0336 * r2 + 0.6317 * r + 0.5699) * eta_iP)%float in
     let σ106 := <["eta_iP_off" := VFloat eta_off]> σ104 in
     (* line 108 *)
     (((eta_off =? 0)%float = true ∧ e = ZeroDivisionError ∧ σ' = σ106) ∨
     (eta_off =? 0)%float = false ∧
     let h_out := (h / 1000 + (h_s / 1000 - h / 1000) / eta_off)%float in
     let σ108 := <["h_out_off" := VFloat h_out]> σ106 in
     (* line 109 *)
     ((PropsSI "T" "Hmass" (h_out * 1000) "P" (p_out_off * 1000) medium = None ∧
       e = ValueError ∧ σ' = σ108) ∨
     ∃ t, PropsSI "T" "Hmass" (h_out * 1000) "P" (p_out_off * 1000) medium = Some t ∧
     (* line 110 *)
     PropsSI "Smass" "T" (t - 273.15 + 273.15) "P" (p_out_off * 1000) medium = None ∧
     e = ValueError ∧
     σ' = <["T_out_off" := VFloat (t - 273.15)]> σ108))))))))))).
Proof.
  split; [|split; [|split; [|split]]].
  - intros T_in p_in p_out mf medium σ' e E. split.
    { unfold Pump. rewrite E. exact eq_refl. }
    revert σ' e E. wp_err. unfold __init__.
    wp_run; subst Q; cbv beta; fdiv_inv; first [ exact I | fail_point ].
  - intros eta_iP σ σ' e E.
    destruct (power_failure _ _ _ _ E) as [H1 H2]. split; [|split]; try done.
    intros name Hn. pose proof (power_preserves PropsSI eta_iP σ name Hn) as H.
    rewrite E in H. exact H.
  - intros eta_iP σ σ' e h_in h_out_s p_out medium mf Hh Hs Hp Hm Hmf.
    revert σ' e. wp_err. unfold power.
    wp_run; subst Q; cbv beta; fdiv_inv; first [ exact I | fail_point ].
  - intros T_in_off p_in_off p_out_off mf_off σ σ' e E.
    destruct (off_design_failure _ _ _ _ _ _ _ E) as (H1 & H2 & H3 & H4 & H5).
    repeat split; try done.
    intros name Hn.
    pose proof (off_design_preserves PropsSI float_pow T_in_off p_in_off
                  p_out_off mf_off σ name Hn) as H.
    rewrite E in H. exact H.
  - intros T_in_off p_in_off p_out_off mf_off σ σ' e medium V_in eta_iP Hm HV He.
    revert σ' e. wp_err. unfold off_design.
    wp_run; subst Q; cbv beta; fdiv_inv; first [ exact I | fail_point ].
Qed.

(** C9. Running [power(eta_iP)] again on the object the first run left
    gives the same outcome and leaves the object as the first run left
    it, whatever the object and the outcome. *)
Theorem C9_power_idempotent eta_iP σ :
  power PropsSI eta_iP (power PropsSI eta_iP σ).1 = power PropsSI eta_iP σ.
Proof.
  destruct (power PropsSI eta_iP σ) as [σ1 r] eqn:E. simpl.
  revert σ1 r E. wp_start. unfold power.
  wp_run; apply wp_eq; repeat wp_step_again; exact eq_refl.
Qed.

(** C10, as amended. On a freshly constructed pump ([power] never
    called) [off_design] never ends normally. It reaches the read of the
    unset [eta_iP] and raises [AttributeError] there exactly when the five
    lookups of lines 96-103 answer, the off-design density and flow are not
    zero and the two powers of the flow ratio are in range; exactly the
    eleven attributes [T_in_off] ... [V_in_off] have then been assigned.
    Otherwise an earlier statement raises [ValueError],
    [ZeroDivisionError] or [OverflowError]. *)
Theorem C10_off_design_before_power
    T_in p_in p_out mf medium σ V_in T_in_off p_in_off p_out_off mf_off :
  Pump PropsSI T_in p_in p_out mf medium = inr σ →
  σ !! "V_in" = Some (VFloat V_in) →
  let run := off_design PropsSI float_pow T_in_off p_in_off p_out_off mf_off σ in
  let reached h s h_s t_s rho r3 r2 :=
    PropsSI "Hmass" "T" (T_in_off + 273.15) "P" (p_in_off * 1000) medium = Some h ∧
    PropsSI "Smass" "T" (T_in_off + 273.15) "P" (p_in_off * 1000) medium = Some s ∧
    PropsSI "Hmass" "Smass" (s / 1000 * 1000) "P" (p_out_off * 1000) medium = Some h_s ∧
    PropsSI "T" "Smass" (s / 1000 * 1000) "P" (p_out_off * 1000) medium = Some t_s ∧
    PropsSI "Dmass" "Hmass" (h / 1000 * 1000) "P" (p_in_off * 1000) medium = Some rho ∧
    (rho =? 0)%float = false ∧
    (mf_off / rho =? 0)%float = false ∧
    float_pow (V_in / (mf_off / rho)) 3 = Some r3 ∧
    float_pow (V_in / (mf_off / rho)) 2 = Some r2 in
  let σ104 h s h_s t_s rho :=
    <["V_in_off" := VFloat (mf_off / rho)]>
      (<["rho_in_off" := VFloat rho]>
         (<["T_out_s_off" := VFloat (t_s - 273.15)]>
            (<["h_out_s_off" := VFloat (h_s / 1000)]>
               (<["s_out_s_off" := VFloat (s / 1000)]>
                  (<["s_in_off" := VFloat (s / 1000)]>
                     (<["h_in_off" := VFloat (h / 1000)]>
                        (<["mf_off" := VFloat mf_off]>
                           (<["p_out_off" := VFloat p_out_off]>
                              (<["p_in_off" := VFloat p_in_off]>
                                 (<["T_in_off" := VFloat T_in_off]> σ)))))))))) in
  (run.2 = inl (AttributeError "eta_iP") ∨ run.2 = inl ValueError ∨
   run.2 = inl ZeroDivisionError ∨ run.2 = inl OverflowError) ∧
  (∀ h s h_s t_s rho r3 r2,
     reached h s h_s t_s rho r3 r2 →
     run = (σ104 h s h_s t_s rho, inl (AttributeError "eta_iP"))) ∧
  (run.2 = inl (AttributeError "eta_iP") →
   ∃ h s h_s t_s rho r3 r2,
     reached h s h_s t_s rho r3 r2 ∧ run.1 = σ104 h s h_s t_s rho).
Proof.
  intros Hc HV. cbv zeta.
  destruct (Pump_fresh _ _ _ _ _ _ Hc) as (Heta & Hmed & _).
  split; [|split].
  - pattern (off_design PropsSI float_pow T_in_off p_in_off p_out_off mf_off σ).
    wp_whole. unfold off_design. wp_run; cbv beta iota delta [fst snd]; fdiv_inv; auto.
  - intros h s h_s t_s rho r3 r2 (Hh & Hs & Hhs & Hts & Hrho & Hrho0 & HV0 & Hr3 & Hr2).
    pose proof (fdiv_nonzero mf_off rho Hrho0) as Hd1.
    pose proof (fdiv_nonzero V_in (mf_off / rho) HV0) as Hd2.
    apply wp_eq. unfold off_design. wp_run. exact eq_refl.
  - pattern (off_design PropsSI float_pow T_in_off p_in_off p_out_off mf_off σ).
    wp_whole. unfold off_design.
    wp_run; cbv beta iota delta [fst snd]; fdiv_inv; intros H; try discriminate H.
    do 7 eexists. repeat split; first [ eassumption | reflexivity ].
Qed.

End Claims.

(** ** Further properties of the three methods *)

Section Methods.
Variable PropsSI : string → string → float → string → float → string → option float.
Variable float_pow : float → Z → option float.

(** *** What each method does, outcome by outcome *)

(** [__init__] on a fresh object. *)
Lemma init_spec T_in p_in p_out mf medium :
  wp (__init__ PropsSI T_in p_in p_out mf medium) ∅ (λ σ r,
    match r with
    | inr _ =>
        ∃ h s h_s t_s rho,
          PropsSI "Hmass" "T" (T_in + 273.15) "P" (p_in * 1000) medium = Some h ∧
          PropsSI "Smass" "T" (T_in + 273.15) "P" (p_in * 1000) medium = Some s ∧
          PropsSI "Hmass" "Smass" (s / 1000 * 1000) "P" (p_out * 1000) medium = Some h_s ∧
          PropsSI "T" "Smass" (s / 1000 * 1000) "P" (p_out * 1000) medium = Some t_s ∧
          PropsSI "Dmass" "Hmass" (h / 1000 * 1000) "P" (p_in * 1000) medium = Some rho ∧
          (rho =? 0)%float = false ∧
          σ = list_to_map
                [ ("T_in", VFloat T_in); ("p_in", VFloat p_in); ("p_out", VFloat p_out);
                  ("mf", VFloat mf); ("medium", VStr medium);
                  ("h_in", VFloat (h / 1000)); ("s_in", VFloat (s / 1000));
                  ("s_out_s", VFloat (s / 1000)); ("h_out_s", VFloat (h_s / 1000));
                  ("T_out_s", VFloat (t_s - 273.15)); ("rho_in", VFloat rho);
                  ("V_in", VFloat (mf / rho)) ]
    | inl e =>
        (e = ValueError ∧ ∃ out n1 v1 v2, PropsSI out n1 v1 "P" v2 medium = None) ∨
        (e = ZeroDivisionError ∧
         ∃ h rho,
           PropsSI "Hmass" "T" (T_in + 273.15) "P" (p_in * 1000) medium = Some h ∧
           PropsSI "Dmass" "Hmass" (h / 1000 * 1000) "P" (p_in * 1000) medium = Some rho ∧
           (rho =? 0)%float = true)
    end).
Proof.
  unfold __init__. wp_run; fdiv_inv.
  all: try (left; split; [reflexivity|]; do 4 eexists; eassumption).
  - right. split; [reflexivity|]. do 2 eexists. repeat split; eassumption.
  - do 5 eexists. repeat split; eassumption.
Qed.

Lemma init_inv T_in p_in p_out mf medium σ :
  Pump PropsSI T_in p_in p_out mf medium = inr σ →
  ∃ h s h_s t_s rho,
    PropsSI "Hmass" "T" (T_in + 273.15) "P" (p_in * 1000) medium = Some h ∧
    PropsSI "Smass" "T" (T_in + 273.15) "P" (p_in * 1000) medium = Some s ∧
    PropsSI "Hmass" "Smass" (s / 1000 * 1000) "P" (p_out * 1000) medium = Some h_s ∧
    PropsSI "T" "Smass" (s / 1000 * 1000) "P" (p_out * 1000) medium = Some t_s ∧
    PropsSI "Dmass" "Hmass" (h / 1000 * 1000) "P" (p_in * 1000) medium = Some rho ∧
    (rho =? 0)%float = false ∧
    σ = list_to_map
          [ ("T_in", VFloat T_in); ("p_in", VFloat p_in); ("p_out", VFloat p_out);
            ("mf", VFloat mf); ("medium", VStr medium);
            ("h_in", VFloat (h / 1000)); ("s_in", VFloat (s / 1000));
            ("s_out_s", VFloat (s / 1000)); ("h_out_s", VFloat (h_s / 1000));
            ("T_out_s", VFloat (t_s - 273.15)); ("rho_in", VFloat rho);
            ("V_in", VFloat (mf / rho)) ].
Proof.
  unfold Pump. pose proof (init_spec T_in p_in p_out mf medium) as H.
  unfold wp in H. destruct (__init__ _ _ _ _ _ _ _) as [σ' [e|[]]]; [discriminate|].
  intros [= <-]. exact H.
Qed.

(** [power] on an object that holds what it reads. *)
Lemma power_spec eta_iP σ h_in h_out_s p_out medium mf :
  σ !! "h_in" = Some (VFloat h_in) →
  σ !! "h_out_s" = Some (VFloat h_out_s) →
  σ !! "p_out" = Some (VFloat p_out) →
  σ !! "medium" = Some (VStr medium) →
  σ !! "mf" = Some (VFloat mf) →
  wp (power PropsSI eta_iP) σ (λ σ' r,
    let h_out := (h_in + (h_out_s - h_in) / eta_iP)%float in
    match r with
    | inr _ =>
        (eta_iP =? 0)%float = false ∧
        ∃ t s,
          PropsSI "T" "Hmass" (h_out * 1000) "P" (p_out * 1000) medium = Some t ∧
          PropsSI "Smass" "T" (t - 273.15 + 273.15) "P" (p_out * 1000) medium = Some s ∧
          σ' = <["N_iP" := VFloat (mf * (h_out - h_in))]>
                 (<["s_out" := VFloat (s / 1000)]>
                    (<["T_out" := VFloat (t - 273.15)]>
                       (<["h_out" := VFloat h_out]>
                          (<["eta_iP" := VFloat eta_iP]> σ))))
    | inl e =>
        (e = ZeroDivisionError ∧ (eta_iP =? 0)%float = true ∧
         σ' = <["eta_iP" := VFloat eta_iP]> σ) ∨
        (e = ValueError ∧ (eta_iP =? 0)%float = false)
    end).
Proof.
  intros Hh Hs Hp Hm Hmf. unfold power. wp_run; fdiv_inv.
  all: try (right; split; reflexivity).
  - left. repeat split.
  - split; [reflexivity|]. do 2 eexists. repeat split; eassumption.
Qed.

(** [off_design] on an object that holds what it reads. *)
Lemma off_design_spec T_in_off p_in_off p_out_off mf_off σ medium V_in eta_iP :
  σ !! "medium" = Some (VStr medium) →
  σ !! "V_in" = Some (VFloat V_in) →
  σ !! "eta_iP" = Some (VFloat eta_iP) →
  wp (off_design PropsSI float_pow T_in_off p_in_off p_out_off mf_off) σ (λ σ' r,
    match r with
    | inr _ =>
        ∃ h s h_s t_s rho r3 r2 t s_o,
          PropsSI "Hmass" "T" (T_in_off + 273.15) "P" (p_in_off * 1000) medium = Some h ∧
          PropsSI "Smass" "T" (T_in_off + 273.15) "P" (p_in_off * 1000) medium = Some s ∧
          PropsSI "Hmass" "Smass" (s / 1000 * 1000) "P" (p_out_off * 1000) medium = Some h_s ∧
          PropsSI "T" "Smass" (s / 1000 * 1000) "P" (p_out_off * 1000) medium = Some t_s ∧
          PropsSI "Dmass" "Hmass" (h / 1000 * 1000) "P" (p_in_off * 1000) medium = Some rho ∧
          (rho =? 0)%float = false ∧
          (mf_off / rho =? 0)%float = false ∧
          float_pow (V_in / (mf_off / rho)) 3 = Some r3 ∧
          float_pow (V_in / (mf_off / rho)) 2 = Some r2 ∧
          let eta_off :=
            ((-0.168 * r3 - 0.0336 * r2 + 0.6317 * (V_in / (mf_off / rho)) + 0.5699)
             * eta_iP)%float in
          let h_out := (h / 1000 + (h_s / 1000 - h / 1000) / eta_off)%float in
          (eta_off =? 0)%float = false ∧
          PropsSI "T" "Hmass" (h_out * 1000) "P" (p_out_off * 1000) medium = Some t ∧
          PropsSI "Smass" "T" (t - 273.15 + 273.15) "P" (p_out_off * 1000) medium = Some s_o ∧
          σ' = <["N_iP_off" := VFloat (mf_off * (h_out - h / 1000))]>
              (<["s_out_off" := VFloat (s_o / 1000)]>
              (<["T_out_off" := VFloat (t - 273.15)]>
              (<["h_out_off" := VFloat h_out]>
              (<["eta_iP_off" := VFloat eta_off]>
              (<["V_in_off" := VFloat (mf_off / rho)]>
              (<["rho_in_off" := VFloat rho]>
              (<["T_out_s_off" := VFloat (t_s - 273.15)]>
              (<["h_out_s_off" := VFloat (h_s / 1000)]>
              (<["s_out_s_off" := VFloat (s / 1000)]>
              (<["s_in_off" := VFloat (s / 1000)]>
              (<["h_in_off" := VFloat (h / 1000)]>
              (<["mf_off" := VFloat mf_off]>
              (<["p_out_off" := VFloat p_out_off]>
              (<["p_in_off" := VFloat p_in_off]>
              (<["T_in_off" := VFloat T_in_off]> σ)))))))))))))))
    | inl e => e = ValueError ∨ e = ZeroDivisionError ∨ e = OverflowError
    end).
Proof.
  intros Hm HV He. unfold off_design. wp_run; fdiv_inv; auto.
  do 9 eexists. cbv zeta. repeat split; eassumption.
Qed.

Lemma off_design_run T_in_off p_in_off p_out_off mf_off σ medium V_in eta_iP
    h s h_s t_s rho r3 r2 t s_o :
  σ !! "medium" = Some (VStr medium) →
  σ !! "V_in" = Some (VFloat V_in) →
  σ !! "eta_iP" = Some (VFloat eta_iP) →
  PropsSI "Hmass" "T" (T_in_off + 273.15) "P" (p_in_off * 1000) medium = Some h →
  PropsSI "Smass" "T" (T_in_off + 273.15) "P" (p_in_off * 1000) medium = Some s →
  PropsSI "Hmass" "Smass" (s / 1000 * 1000) "P" (p_out_off * 1000) medium = Some h_s →
  PropsSI "T" "Smass" (s / 1000 * 1000) "P" (p_out_off * 1000) medium = Some t_s →
  PropsSI "Dmass" "Hmass" (h / 1000 * 1000) "P" (p_in_off * 1000) medium = Some rho →
  (rho =? 0)%float = false →
  (mf_off / rho =? 0)%float = false →
  float_pow (V_in / (mf_off / rho)) 3 = Some r3 →
  float_pow (V_in / (mf_off / rho)) 2 = Some r2 →
  let eta_off :=
    ((-0.168 * r3 - 0.0336 * r2 + 0.6317 * (V_in / (mf_off / rho)) + 0.5699)
     * eta_iP)%float in
  let h_out := (h / 1000 + (h_s / 1000 - h / 1000) / eta_off)%float in
  (eta_off =? 0)%float = false →
  PropsSI "T" "Hmass" (h_out * 1000) "P" (p_out_off * 1000) medium = Some t →
  PropsSI "Smass" "T" (t - 273.15 + 273.15) "P" (p_out_off * 1000) medium = Some s_o →
  off_design PropsSI float_pow T_in_off p_in_off p_out_off mf_off σ =
    (<["N_iP_off" := VFloat (mf_off * (h_out - h / 1000))]>
        (<["s_out_off" := VFloat (s_o / 1000)]>
        (<["T_out_off" := VFloat (t - 273.15)]>
        (<["h_out_off" := VFloat h_out]>
        (<["eta_iP_off" := VFloat eta_off]>
        (<["V_in_off" := VFloat (mf_off / rho)]>
        (<["rho_in_off" := VFloat rho]>
        (<["T_out_s_off" := VFloat (t_s - 273.15)]>
        (<["h_out_s_off" := VFloat (h_s / 1000)]>
        (<["s_out_s_off" := VFloat (s / 1000)]>
        (<["s_in_off" := VFloat (s / 1000)]>
        (<["h_in_off" := VFloat (h / 1000)]>
        (<["mf_off" := VFloat mf_off]>
        (<["p_out_off" := VFloat p_out_off]>
        (<["p_in_off" := VFloat p_in_off]>
        (<["T_in_off" := VFloat T_in_off]> σ))))))))))))))),
     inr tt).
Proof.
  intros Hm HV He Hh Hs Hhs Hts Hrho N1 N2 Hr3 Hr2 eta_off h_out N3 Ht Hso.
  pose proof (fdiv_nonzero mf_off rho N1) as Hd1.
  pose proof (fdiv_nonzero V_in (mf_off / rho) N2) as Hd2.
  pose proof (fdiv_nonzero (h_s / 1000 - h / 1000) eta_off N3) as Hd3.
  subst eta_off h_out.
  apply wp_eq. unfold off_design. wp_run. exact eq_refl.
Qed.

(** *** The constructor *)

(** X1. Construction succeeds exactly when the five backend lookups of
    lines 41-49 answer and the density is not zero. The object then holds
    exactly twelve attributes: the five arguments as passed, the inlet
    enthalpy and entropy (the answers divided by 1000), [s_out_s] equal to
    [s_in], the isentropic outlet enthalpy and temperature, looked up at the
    entropy [s_in * 1000] and the pressure [p_out * 1000], the inlet
    density, and [V_in = mf / rho_in]. *)
Theorem X1_Pump_design_point T_in p_in p_out mf medium σ :
  Pump PropsSI T_in p_in p_out mf medium = inr σ ↔
  ∃ h s h_s t_s rho,
    PropsSI "Hmass" "T" (T_in + 273.15) "P" (p_in * 1000) medium = Some h ∧
    PropsSI "Smass" "T" (T_in + 273.15) "P" (p_in * 1000) medium = Some s ∧
    PropsSI "Hmass" "Smass" (s / 1000 * 1000) "P" (p_out * 1000) medium = Some h_s ∧
    PropsSI "T" "Smass" (s / 1000 * 1000) "P" (p_out * 1000) medium = Some t_s ∧
    PropsSI "Dmass" "Hmass" (h / 1000 * 1000) "P" (p_in * 1000) medium = Some rho ∧
    (rho =? 0)%float = false ∧
    σ = list_to_map
          [ ("T_in", VFloat T_in); ("p_in", VFloat p_in); ("p_out", VFloat p_out);
            ("mf", VFloat mf); ("medium", VStr medium);
            ("h_in", VFloat (h / 1000)); ("s_in", VFloat (s / 1000));
            ("s_out_s", VFloat (s / 1000)); ("h_out_s", VFloat (h_s / 1000));
            ("T_out_s", VFloat (t_s - 273.15)); ("rho_in", VFloat rho);
            ("V_in", VFloat (mf / rho)) ].
Proof.
  split; [apply init_inv|].
  intros (h & s & h_s & t_s & rho & Hh & Hs & Hhs & Hts & Hrho & N & ->).
  pose proof (fdiv_nonzero mf rho N) as Hd.
  unfold Pump.
  match goal with |- _ = inr ?σ =>
    assert (E : __init__ PropsSI T_in p_in p_out mf medium ∅ = (σ, inr tt)) end.
  { apply wp_eq. unfold __init__. wp_run. exact eq_refl. }
  rewrite E. reflexivity.
Qed.

(** X2. A construction that fails raises [ValueError], passed on from a
    backend lookup that did not answer, or [ZeroDivisionError], at line 50,
    when the backend answered a zero density; it raises nothing else. *)
Theorem X2_Pump_errors T_in p_in p_out mf medium e :
  Pump PropsSI T_in p_in p_out mf medium = inl e →
  (e = ValueError ∧ ∃ out n1 v1 v2, PropsSI out n1 v1 "P" v2 medium = None) ∨
  (e = ZeroDivisionError ∧
   ∃ h rho,
     PropsSI "Hmass" "T" (T_in + 273.15) "P" (p_in * 1000) medium = Some h ∧
     PropsSI "Dmass" "Hmass" (h / 1000 * 1000) "P" (p_in * 1000) medium = Some rho ∧
     (rho =? 0)%float = true).
Proof.
  unfold Pump. pose proof (init_spec T_in p_in p_out mf medium) as H.
  unfold wp in H. destruct (__init__ _ _ _ _ _ _ _) as [σ' [e'|[]]]; [|discriminate].
  intros [= <-]. exact H.
Qed.

(** *** [power] *)

(** X3. On an object that holds [h_in], [h_out_s], [p_out], [mf] and
    [medium], as every constructed pump does, [power(eta_iP)] raises
    [ZeroDivisionError] exactly when [eta_iP == 0], and the object is then
    as before but for [eta_iP]; otherwise it ends normally or passes on the
    backend's [ValueError]. It raises nothing else. *)
Theorem X3_power_outcomes eta_iP σ h_in h_out_s p_out medium mf :
  σ !! "h_in" = Some (VFloat h_in) →
  σ !! "h_out_s" = Some (VFloat h_out_s) →
  σ !! "p_out" = Some (VFloat p_out) →
  σ !! "medium" = Some (VStr medium) →
  σ !! "mf" = Some (VFloat mf) →
  let r := (power PropsSI eta_iP σ).2 in
  (r = inl ZeroDivisionError ↔ (eta_iP =? 0)%float = true) ∧
  ((eta_iP =? 0)%float = true →
   (power PropsSI eta_iP σ).1 = <["eta_iP" := VFloat eta_iP]> σ) ∧
  (r = inr tt ∨ r = inl ZeroDivisionError ∨ r = inl ValueError).
Proof.
  intros Hh Hs Hp Hm Hmf. cbv zeta.
  pose proof (power_spec eta_iP σ _ _ _ _ _ Hh Hs Hp Hm Hmf) as H.
  unfold wp in H. destruct (power PropsSI eta_iP σ) as [σ' [e|[]]]; simpl in *.
  - destruct H as [(He & N & Hσ)|(He & N)]; subst e.
    + repeat split; auto.
    + repeat split; auto; try discriminate; rewrite N; discriminate.
  - destruct H as [N _]. repeat split; auto; try discriminate; rewrite N; discriminate.
Qed.

(** X4. On such an object [power(eta_iP)] ends normally exactly when
    [eta_iP] is not zero and the two backend lookups of lines 80-81 answer.
    The object is then the old one with [eta_iP], with
    [h_out = h_in + (h_out_s - h_in) / eta_iP], with [T_out] the answer at
    ([h_out * 1000], [p_out * 1000]) less 273.15, with [s_out] the answer at
    ([T_out + 273.15], [p_out * 1000]) divided by 1000, and with
    [N_iP = mf * (h_out - h_in)]. *)
Theorem X4_power_outlet_state eta_iP σ σ' h_in h_out_s p_out medium mf :
  σ !! "h_in" = Some (VFloat h_in) →
  σ !! "h_out_s" = Some (VFloat h_out_s) →
  σ !! "p_out" = Some (VFloat p_out) →
  σ !! "medium" = Some (VStr medium) →
  σ !! "mf" = Some (VFloat mf) →
  let h_out := (h_in + (h_out_s - h_in) / eta_iP)%float in
  power PropsSI eta_iP σ = (σ', inr tt) ↔
  (eta_iP =? 0)%float = false ∧
  ∃ t s,
    PropsSI "T" "Hmass" (h_out * 1000) "P" (p_out * 1000) medium = Some t ∧
    PropsSI "Smass" "T" (t - 273.15 + 273.15) "P" (p_out * 1000) medium = Some s ∧
    σ' = <["N_iP" := VFloat (mf * (h_out - h_in))]>
           (<["s_out" := VFloat (s / 1000)]>
              (<["T_out" := VFloat (t - 273.15)]>
                 (<["h_out" := VFloat h_out]>
                    (<["eta_iP" := VFloat eta_iP]> σ)))).
Proof.
  intros Hh Hs Hp Hm Hmf h_out. split.
  - intros E. pose proof (power_spec eta_iP σ _ _ _ _ _ Hh Hs Hp Hm Hmf) as H.
    unfold wp in H. rewrite E in H. exact H.
  - intros (N & t & s & Ht & Hso & ->).
    pose proof (fdiv_nonzero (h_out_s - h_in) eta_iP N) as Hd.
    apply wp_eq. unfold power. wp_run. exact eq_refl.
Qed.

(** X5. [power] depends on the object only through [h_in], [h_out_s],
    [p_out], [medium] and [mf]: run on two objects that agree on these
    five, it has the same outcome, and after a normal end the five
    attributes it assigns are the same in both. *)
Theorem X5_power_reads eta_iP σ1 σ2 :
  agree_on power_inputs σ1 σ2 →
  (power PropsSI eta_iP σ1).2 = (power PropsSI eta_iP σ2).2 ∧
  ((power PropsSI eta_iP σ1).2 = inr tt →
   agree_on power_attrs (power PropsSI eta_iP σ1).1 (power PropsSI eta_iP σ2).1).
Proof.
  intros H. destruct (power_sim PropsSI eta_iP σ1 σ2 H) as (Hr & _ & Ha).
  split; [exact Hr|]. intros E name Hn. apply (Ha tt E), power_attrs_assigned, Hn.
Qed.

(** X6. A call of [power] that ends normally leaves the same object
    whether or not another call of [power], with any efficiency and any
    outcome, was made before it. *)
Theorem X6_power_last_call_wins eta_1 eta_2 σ σ2 :
  power PropsSI eta_2 σ = (σ2, inr tt) →
  power PropsSI eta_2 (power PropsSI eta_1 σ).1 = (σ2, inr tt).
Proof.
  eapply sim_last_wins.
  - apply power_sim.
  - apply power_preserves.
  - apply power_preserves.
  - apply power_inputs_kept.
  - apply power_attrs_assigned.
Qed.

(** X7. For a finite [h_in <= h_out_s], a finite [mf > 0] and any finite
    [eta_iP > 0] (also above 1), a normal end of [power] leaves
    [h_out >= h_in] and [N_iP >= 0]. *)
Theorem X7_power_enthalpy_rise eta_iP σ σ' h_in h_out_s mf :
  σ !! "h_in" = Some (VFloat h_in) →
  σ !! "h_out_s" = Some (VFloat h_out_s) →
  σ !! "mf" = Some (VFloat mf) →
  is_finite h_in = true →
  is_finite mf = true →
  is_finite eta_iP = true →
  (h_in <=? h_out_s)%float = true →
  (0 <? mf)%float = true →
  (0 <? eta_iP)%float = true →
  power PropsSI eta_iP σ = (σ', inr tt) →
  ∃ h_out N_iP,
    σ' !! "h_out" = Some (VFloat h_out) ∧ (h_in <=? h_out)%float = true ∧
    σ' !! "N_iP" = Some (VFloat N_iP) ∧ (0 <=? N_iP)%float = true.
Proof.
  intros Hh Hs Hm Fh Fm Fe Hle Hmf He0. revert σ'. wp_ok. unfold power.
  wp_run; try discriminate. intros _. fdiv_inv.
  do 2 eexists. split; [wp_lookup; exact eq_refl|]. split; [|split].
  - apply Binary64.enthalpy_rise; assumption.
  - wp_lookup; exact eq_refl.
  - apply Binary64.power_sign_finite; assumption.
Qed.

(** *** [off_design] *)

(** X8. On an object that holds [medium], [V_in] and [eta_iP],
    [off_design] ends normally exactly when its seven backend lookups
    answer, the off-design density, the off-design flow and the corrected
    efficiency are not zero, and the two powers of the flow ratio are in
    range. The object is then the old one with the sixteen off-design
    attributes: the four arguments, the off-design inlet and isentropic
    outlet state, [V_in_off = mf_off / rho_in_off], the corrected efficiency
    of line 106, [h_out_off], [T_out_off], [s_out_off] computed as [power]
    computes theirs, and [N_iP_off = mf_off * (h_out_off - h_in_off)]. *)
Theorem X8_off_design_point
    T_in_off p_in_off p_out_off mf_off σ σ' medium V_in eta_iP :
  σ !! "medium" = Some (VStr medium) →
  σ !! "V_in" = Some (VFloat V_in) →
  σ !! "eta_iP" = Some (VFloat eta_iP) →
  off_design PropsSI float_pow T_in_off p_in_off p_out_off mf_off σ = (σ', inr tt) ↔
  ∃ h s h_s t_s rho r3 r2 t s_o,
    PropsSI "Hmass" "T" (T_in_off + 273.15) "P" (p_in_off * 1000) medium = Some h ∧
    PropsSI "Smass" "T" (T_in_off + 273.15) "P" (p_in_off * 1000) medium = Some s ∧
    PropsSI "Hmass" "Smass" (s / 1000 * 1000) "P" (p_out_off * 1000) medium = Some h_s ∧
    PropsSI "T" "Smass" (s / 1000 * 1000) "P" (p_out_off * 1000) medium = Some t_s ∧
    PropsSI "Dmass" "Hmass" (h / 1000 * 1000) "P" (p_in_off * 1000) medium = Some rho ∧
    (rho =? 0)%float = false ∧
    (mf_off / rho =? 0)%float = false ∧
    float_pow (V_in / (mf_off / rho)) 3 = Some r3 ∧
    float_pow (V_in / (mf_off / rho)) 2 = Some r2 ∧
    let eta_off :=
      ((-0.168 * r3 - 0.0336 * r2 + 0.6317 * (V_in / (mf_off / rho)) + 0.5699)
       * eta_iP)%float in
    let h_out := (h / 1000 + (h_s / 1000 - h / 1000) / eta_off)%float in
    (eta_off =? 0)%float = false ∧
    PropsSI "T" "Hmass" (h_out * 1000) "P" (p_out_off * 1000) medium = Some t ∧
    PropsSI "Smass" "T" (t - 273.15 + 273.15) "P" (p_out_off * 1000) medium = Some s_o ∧
    σ' = <["N_iP_off" := VFloat (mf_off * (h_out - h / 1000))]>
        (<["s_out_off" := VFloat (s_o / 1000)]>
        (<["T_out_off" := VFloat (t - 273.15)]>
        (<["h_out_off" := VFloat h_out]>
        (<["eta_iP_off" := VFloat eta_off]>
        (<["V_in_off" := VFloat (mf_off / rho)]>
        (<["rho_in_off" := VFloat rho]>
        (<["T_out_s_off" := VFloat (t_s - 273.15)]>
        (<["h_out_s_off" := VFloat (h_s / 1000)]>
        (<["s_out_s_off" := VFloat (s / 1000)]>
        (<["s_in_off" := VFloat (s / 1000)]>
        (<["h_in_off" := VFloat (h / 1000)]>
        (<["mf_off" := VFloat mf_off]>
        (<["p_out_off" := VFloat p_out_off]>
        (<["p_in_off" := VFloat p_in_off]>
        (<["T_in_off" := VFloat T_in_off]> σ))))))))))))))).
Proof.
  intros Hm HV He. split.
  - intros E.
    pose proof (off_design_spec T_in_off p_in_off p_out_off mf_off σ _ _ _ Hm HV He) as H.
    unfold wp in H. rewrite E in H. exact H.
  - intros (h & s & h_s & t_s & rho & r3 & r2 & t & s_o & Hh & Hs & Hhs & Hts & Hrho
            & N1 & N2 & Hr3 & Hr2 & N3 & Ht & Hso & ->).
    eapply off_design_run; eassumption.
Qed.

(** X9. On an object that holds [medium], [V_in] and [eta_iP],
    [off_design] ends normally or raises [ValueError] (the backend),
    [ZeroDivisionError] (a zero density, flow or corrected efficiency) or
    [OverflowError] (a power of the flow ratio); it raises nothing else. *)
Theorem X9_off_design_outcomes
    T_in_off p_in_off p_out_off mf_off σ medium V_in eta_iP :
  σ !! "medium" = Some (VStr medium) →
  σ !! "V_in" = Some (VFloat V_in) →
  σ !! "eta_iP" = Some (VFloat eta_iP) →
  let r := (off_design PropsSI float_pow T_in_off p_in_off p_out_off mf_off σ).2 in
  r = inr tt ∨ r = inl ValueError ∨ r = inl ZeroDivisionError ∨ r = inl OverflowError.
Proof.
  intros Hm HV He.
  pose proof (off_design_spec T_in_off p_in_off p_out_off mf_off σ _ _ _ Hm HV He) as H.
  unfold wp in H. cbv zeta.
  destruct (off_design _ _ _ _ _ _ _) as [σ' [e|[]]]; simpl in *.
  - right. destruct H as [->| [->| ->]]; auto.
  - left. reflexivity.
Qed.

(** X10. [off_design] can end normally only on an object that holds a
    fluid name in [medium] and numbers in [V_in] and [eta_iP]: the
    constructor and [power] must have run. *)
Theorem X10_off_design_requires T_in_off p_in_off p_out_off mf_off σ σ' :
  off_design PropsSI float_pow T_in_off p_in_off p_out_off mf_off σ = (σ', inr tt) →
  ∃ medium V_in eta_iP,
    σ !! "medium" = Some (VStr medium) ∧
    σ !! "V_in" = Some (VFloat V_in) ∧
    σ !! "eta_iP" = Some (VFloat eta_iP).
Proof.
  revert σ'. wp_ok. unfold off_design. wp_run; try discriminate.
  intros _. do 3 eexists. repeat split; reflexivity.
Qed.

(** X11. [off_design] depends on the object only through [medium],
    [V_in] and [eta_iP]: run with the same arguments on two objects that
    agree on these three, it has the same outcome, and after a normal end
    the sixteen attributes it assigns are the same in both. *)
Theorem X11_off_design_reads T_in_off p_in_off p_out_off mf_off σ1 σ2 :
  agree_on off_design_inputs σ1 σ2 →
  let run := off_design PropsSI float_pow T_in_off p_in_off p_out_off mf_off in
  (run σ1).2 = (run σ2).2 ∧
  ((run σ1).2 = inr tt → agree_on off_design_attrs (run σ1).1 (run σ2).1).
Proof.
  intros H run.
  destruct (off_design_sim PropsSI float_pow T_in_off p_in_off p_out_off mf_off σ1 σ2 H)
    as (Hr & _ & Ha).
  split; [exact Hr|]. intros E name Hn. apply (Ha tt E), off_design_attrs_assigned, Hn.
Qed.

(** X12. Running [off_design] again with the same arguments on the
    object the first run left gives the same outcome and leaves the object
    as the first run left it, whatever the object and the outcome. *)
Theorem X12_off_design_idempotent T_in_off p_in_off p_out_off mf_off σ :
  off_design PropsSI float_pow T_in_off p_in_off p_out_off mf_off
    (off_design PropsSI float_pow T_in_off p_in_off p_out_off mf_off σ).1 =
  off_design PropsSI float_pow T_in_off p_in_off p_out_off mf_off σ.
Proof.
  eapply sim_idempotent.
  - apply off_design_sim.
  - apply off_design_preserves.
  - apply off_design_inputs_kept.
Qed.

(** X13. A call of [off_design] that ends normally leaves the same
    object whether or not another call of [off_design], with any arguments
    and any outcome, was made before it. *)
Theorem X13_off_design_last_call_wins
    T_1 p_1 p_out_1 mf_1 T_2 p_2 p_out_2 mf_2 σ σ2 :
  off_design PropsSI float_pow T_2 p_2 p_out_2 mf_2 σ = (σ2, inr tt) →
  off_design PropsSI float_pow T_2 p_2 p_out_2 mf_2
    (off_design PropsSI float_pow T_1 p_1 p_out_1 mf_1 σ).1 = (σ2, inr tt).
Proof.
  eapply sim_last_wins.
  - apply off_design_sim.
  - apply off_design_preserves.
  - apply off_design_preserves.
  - apply off_design_inputs_kept.
  - apply off_design_attrs_assigned.
Qed.

(** X14. With a zero off-design mass flow, when the five lookups of
    lines 96-103 answer a density that is neither zero nor a NaN,
    [off_design] raises [ZeroDivisionError] at line 106: [V_in_off] is zero
    and divides [V_in]. This happens before [eta_iP] is read, so also on a
    pump on which [power] never ran. *)
Theorem X14_off_design_zero_flow
    σ medium V_in T_in_off p_in_off p_out_off mf_off h s h_s t_s rho :
  σ !! "medium" = Some (VStr medium) →
  σ !! "V_in" = Some (VFloat V_in) →
  PropsSI "Hmass" "T" (T_in_off + 273.15) "P" (p_in_off * 1000) medium = Some h →
  PropsSI "Smass" "T" (T_in_off + 273.15) "P" (p_in_off * 1000) medium = Some s →
  PropsSI "Hmass" "Smass" (s / 1000 * 1000) "P" (p_out_off * 1000) medium = Some h_s →
  PropsSI "T" "Smass" (s / 1000 * 1000) "P" (p_out_off * 1000) medium = Some t_s →
  PropsSI "Dmass" "Hmass" (h / 1000 * 1000) "P" (p_in_off * 1000) medium = Some rho →
  (rho =? 0)%float = false →
  is_nan rho = false →
  (mf_off =? 0)%float = true →
  let run := off_design PropsSI float_pow T_in_off p_in_off p_out_off mf_off σ in
  run.2 = inl ZeroDivisionError ∧
  run.1 !! "V_in_off" = Some (VFloat (mf_off / rho)) ∧
  run.1 !! "eta_iP_off" = σ !! "eta_iP_off".
Proof.
  intros Hmed HV Hh Hs Hhs Hts Hrho Hrho0 Hnan Z run.
  pose proof (fdiv_nonzero mf_off rho Hrho0) as Hd1.
  assert (Hd2 : fdiv V_in (mf_off / rho) = inl ZeroDivisionError).
  { unfold fdiv. rewrite (Binary64.zero_div mf_off rho Z Hrho0 Hnan). reflexivity. }
  subst run.
  change (wp (off_design PropsSI float_pow T_in_off p_in_off p_out_off mf_off) σ
            (λ σ' r, r = inl ZeroDivisionError ∧
               σ' !! "V_in_off" = Some (VFloat (mf_off / rho)) ∧
               σ' !! "eta_iP_off" = σ !! "eta_iP_off")).
  unfold off_design. wp_run. repeat split; wp_lookup; done.
Qed.

(** X15. After a normal end of [off_design], when [h_in_off] is finite
    and not above [h_out_s_off], [mf_off] is finite and positive and the
    corrected efficiency [eta_iP_off] is finite and positive, the object
    holds [h_out_off >= h_in_off] and [N_iP_off >= 0]. *)
Theorem X15_off_design_power_nonnegative
    T_in_off p_in_off p_out_off mf_off σ σ' h_in_off h_out_s_off eta_iP_off :
  off_design PropsSI float_pow T_in_off p_in_off p_out_off mf_off σ = (σ', inr tt) →
  σ' !! "h_in_off" = Some (VFloat h_in_off) →
  σ' !! "h_out_s_off" = Some (VFloat h_out_s_off) →
  σ' !! "eta_iP_off" = Some (VFloat eta_iP_off) →
  is_finite h_in_off = true →
  is_finite mf_off = true →
  is_finite eta_iP_off = true →
  (h_in_off <=? h_out_s_off)%float = true →
  (0 <? mf_off)%float = true →
  (0 <? eta_iP_off)%float = true →
  ∃ h_out_off N_iP_off,
    σ' !! "h_out_off" = Some (VFloat h_out_off) ∧
    (h_in_off <=? h_out_off)%float = true ∧
    σ' !! "N_iP_off" = Some (VFloat N_iP_off) ∧
    (0 <=? N_iP_off)%float = true.
Proof.
  intros E. revert σ' E. wp_ok. unfold off_design. wp_run; try discriminate.
  intros _. fdiv_inv.
  repeat first [rewrite lookup_insert_eq | rewrite lookup_insert_ne by done].
  intros [= <-] [= <-] [= <-] Fh Fm Fe Hle Hmf He0.
  do 2 eexists. split; [reflexivity|]. split; [|split].
  - apply Binary64.enthalpy_rise; assumption.
  - reflexivity.
  - apply Binary64.power_sign_finite; assumption.
Qed.

(** *** The methods together *)

(** X16. A call of [off_design], whatever its arguments and outcome,
    does not change what a later [power] does: the outcome of [power] and
    the seventeen design-point attributes after it are as without the
    [off_design] call. *)
Theorem X16_off_design_then_power T_in_off p_in_off p_out_off mf_off eta_iP σ :
  let σ1 := (off_design PropsSI float_pow T_in_off p_in_off p_out_off mf_off σ).1 in
  (power PropsSI eta_iP σ1).2 = (power PropsSI eta_iP σ).2 ∧
  agree_on design_attrs (power PropsSI eta_iP σ1).1 (power PropsSI eta_iP σ).1.
Proof.
  intros σ1.
  assert (Hf : ∀ name, name ∉ off_design_attrs → σ1 !! name = σ !! name).
  { intros name Hn. apply off_design_preserves, Hn. }
  assert (Ha : agree_on power_inputs σ1 σ).
  { intros name Hn. apply Hf. unfold power_inputs in Hn.
    repeat (apply elem_of_cons in Hn as [->|Hn]; [not_in_list|]).
    by apply elem_of_nil in Hn. }
  destruct (power_sim PropsSI eta_iP σ1 σ Ha) as (Hr & (l & E1 & E2) & _).
  split; [exact Hr|]. intros name Hn. rewrite E1, E2.
  destruct (decide (name ∈ l.*1)) as [Hin|Hout].
  - apply lookup_assign_in, Hin.
  - rewrite !lookup_assign_out by exact Hout. apply Hf.
    unfold design_attrs, power_attrs in Hn. simpl in Hn.
    repeat (apply elem_of_cons in Hn as [->|Hn]; [not_in_list|]).
    by apply elem_of_nil in Hn.
Qed.

(** X17. After a [power] call with a zero efficiency, which fails but
    leaves [eta_iP] assigned, [off_design] does not fail on the read of
    [eta_iP]: when its statements up to line 106 succeed with a finite
    correction factor, it assigns a zero [eta_iP_off] and raises
    [ZeroDivisionError] at line 108, leaving [h_out_off] as it was. *)
Theorem X17_off_design_after_failed_power
    eta_iP σ0 σ medium V_in
    T_in_off p_in_off p_out_off mf_off h s h_s t_s rho r3 r2 :
  (eta_iP =? 0)%float = true →
  σ = (power PropsSI eta_iP σ0).1 →
  σ !! "medium" = Some (VStr medium) →
  σ !! "V_in" = Some (VFloat V_in) →
  PropsSI "Hmass" "T" (T_in_off + 273.15) "P" (p_in_off * 1000) medium = Some h →
  PropsSI "Smass" "T" (T_in_off + 273.15) "P" (p_in_off * 1000) medium = Some s →
  PropsSI "Hmass" "Smass" (s / 1000 * 1000) "P" (p_out_off * 1000) medium = Some h_s →
  PropsSI "T" "Smass" (s / 1000 * 1000) "P" (p_out_off * 1000) medium = Some t_s →
  PropsSI "Dmass" "Hmass" (h / 1000 * 1000) "P" (p_in_off * 1000) medium = Some rho →
  (rho =? 0)%float = false →
  (mf_off / rho =? 0)%float = false →
  float_pow (V_in / (mf_off / rho)) 3 = Some r3 →
  float_pow (V_in / (mf_off / rho)) 2 = Some r2 →
  let factor :=
    (-0.168 * r3 - 0.0336 * r2 + 0.6317 * (V_in / (mf_off / rho)) + 0.5699)%float in
  is_finite factor = true →
  let run := off_design PropsSI float_pow T_in_off p_in_off p_out_off mf_off σ in
  run.2 = inl ZeroDivisionError ∧
  run.1 !! "eta_iP_off" = Some (VFloat (factor * eta_iP)) ∧
  (factor * eta_iP =? 0)%float = true ∧
  run.1 !! "h_out_off" = σ !! "h_out_off".
Proof.
  intros Z Hp Hmed HV Hh Hs Hhs Hts Hrho Hrho0 HV0 Hr3 Hr2 factor F run.
  assert (Heta : σ !! "eta_iP" = Some (VFloat eta_iP)).
  { rewrite Hp. apply power_sets_eta_iP. }
  pose proof (fdiv_nonzero mf_off rho Hrho0) as Hd1.
  pose proof (fdiv_nonzero V_in (mf_off / rho) HV0) as Hd2.
  pose proof (Binary64.mul_zero factor eta_iP F Z) as Hz.
  assert (Hd3 : fdiv (h_s / 1000 - h / 1000) (factor * eta_iP) = inl ZeroDivisionError).
  { unfold fdiv. rewrite Hz. reflexivity. }
  subst factor run. clear Hp.
  match goal with |- _ ∧ _ ∧ ?c ∧ _ =>
    change (wp (off_design PropsSI float_pow T_in_off p_in_off p_out_off mf_off) σ
              (λ σ' r, r = inl ZeroDivisionError ∧
                 σ' !! "eta_iP_off" =
                   Some (VFloat ((-0.168 * r3 - 0.0336 * r2
                                  + 0.6317 * (V_in / (mf_off / rho)) + 0.5699) * eta_iP)) ∧
                 c ∧ σ' !! "h_out_off" = σ !! "h_out_off"))
  end.
  unfold off_design. wp_run. repeat split; wp_lookup; done.
Qed.

(** X18. A pump constructed and run through [power(eta_iP)], then asked
    for the off-design point at its own design conditions (the
    constructor's [T_in], [p_in], [p_out], [mf]): when [V_in] is finite and
    not zero (and [1 ** n = 1], as in Python), [off_design] ends normally
    and every off-design attribute holds what the design attribute of the
    same name holds, [eta_iP_off] and [N_iP_off] included. *)
Theorem X18_off_design_at_design_point
    T_in p_in p_out mf medium eta_iP σ σ' V_in :
  Pump PropsSI T_in p_in p_out mf medium = inr σ →
  power PropsSI eta_iP σ = (σ', inr tt) →
  σ !! "V_in" = Some (VFloat V_in) →
  is_finite V_in = true →
  (V_in =? 0)%float = false →
  float_pow 1 3 = Some 1%float →
  float_pow 1 2 = Some 1%float →
  ∃ σ'',
    off_design PropsSI float_pow T_in p_in p_out mf σ' = (σ'', inr tt) ∧
    ∀ name, name ∈ design_attrs → name ≠ "medium" →
      σ'' !! (name +:+ "_off") = σ'' !! name.
Proof.
  intros Hc Hp HV F N H3 H2.
  destruct (init_inv _ _ _ _ _ _ Hc)
    as (h & s & h_s & t_s & rho & Hh & Hs & Hhs & Hts & Hrho & Nrho & ->).
  injection HV as <-.
  match type of Hp with power _ _ ?σ = _ =>
    pose proof (power_spec eta_iP σ (h / 1000) (h_s / 1000) p_out medium mf
                  eq_refl eq_refl eq_refl eq_refl eq_refl) as Hq
  end.
  unfold wp in Hq. rewrite Hp in Hq. cbv beta zeta iota delta [fst snd] in Hq.
  destruct Hq as (Ne & t & s_o & Ht & Hso & ->).
  clear Hp.
  pose proof (Binary64.div_self _ F N) as Hr.
  assert (Hf : ((-0.168 * 1 - 0.0336 * 1 + 0.6317 * (mf / rho / (mf / rho)) + 0.5699)
                * eta_iP)%float = eta_iP).
  { rewrite Hr. change (-0.168 * 1 - 0.0336 * 1 + 0.6317 * 1 + 0.5699)%float with 1%float.
    apply Binary64.mul_one. }
  eexists. split.
  - eapply (off_design_run T_in p_in p_out mf _ medium (mf / rho) eta_iP
              h s h_s t_s rho 1 1 t s_o); try eassumption; try exact eq_refl.
    + rewrite Hr. exact H3.
    + rewrite Hr. exact H2.
    + rewrite Hf. exact Ne.
    + rewrite Hf. exact Ht.
  - rewrite Hf. intros name Hin Hne. unfold design_attrs, power_attrs in Hin. simpl in Hin.
    repeat (apply elem_of_cons in Hin as [->|Hin]; [first [exact eq_refl | done]|]).
    by apply elem_of_nil in Hin.
Qed.

End Methods.

(** ** The claims at concrete pumps *)

(** The methods run: the design point of the first scenario, and the pump
    after [power(0.75)]. *)
Example pump25_design_point :
  Pump water25 25 100 500 1 "Water" = inr pump25 ∧
  pump25 !! "h_in" = Some (VFloat (104920 / 1000)) ∧
  pump25 !! "s_out_s" = Some (VFloat (367.2 / 1000)) ∧
  pump25 !! "h_out_s" = Some (VFloat (105320 / 1000)) ∧
  pump25 !! "V_in" = Some (VFloat (1 / 997)) ∧
  pump25 !! "eta_iP" = None.
Proof. repeat split; exact eq_refl. Qed.

Example pump25_power :
  power water25 0.75 pump25 = (pump25_powered, inr tt) ∧
  pump25_powered !! "eta_iP" = Some (VFloat 0.75) ∧
  pump25_powered !! "h_out" = Some (VFloat 105.45333333333332) ∧
  pump25_powered !! "N_iP" = Some (VFloat (1 * (105.45333333333332 - 104.92))).
Proof. repeat split; exact eq_refl. Qed.

Lemma C1_off_design_efficiency_witness :
  (off_design water25 pow_mul 25 100 500 2 pump25_powered).1 !! "eta_iP_off" =
  Some (VFloat ((-0.168 * 0.125 - 0.0336 * 0.25 + 0.6317 * 0.5 + 0.5699) * 0.75)).
Proof.
  refine (proj2 (proj2 (proj2
    (C1_off_design_efficiency water25 pow_mul
       0.75 pump25 pump25_powered "Water" (1 / 997)
       25 100 500 2 104920 367.2 105320 298.16 997 0.125 0.25
       _ _ _ _ _ _ _ _ _ _ _ _)))); exact eq_refl.
Defined.

(** C1 as stated fails: the powered pump asked for an off-design point
    with a mass flow of 1e-103 kg/s. Every lookup answers and [V_in_off] is
    not zero, but the flow ratio is about 1e103, its cube is out of range,
    and line 106 raises [OverflowError]: [eta_iP_off] is never assigned. *)
Lemma C1_counterexample :
  let run := off_design water25 pow_mul 25 100 500 1e-103 pump25_powered in
  power water25 0.75 pump25 = (pump25_powered, inr tt) ∧
  water25 "Hmass" "T" (25 + 273.15) "P" (100 * 1000) "Water" = Some 104920%float ∧
  water25 "Smass" "T" (25 + 273.15) "P" (100 * 1000) "Water" = Some 367.2%float ∧
  water25 "Hmass" "Smass" (367.2 / 1000 * 1000) "P" (500 * 1000) "Water" = Some 105320%float ∧
  water25 "T" "Smass" (367.2 / 1000 * 1000) "P" (500 * 1000) "Water" = Some 298.16%float ∧
  water25 "Dmass" "Hmass" (104920 / 1000 * 1000) "P" (100 * 1000) "Water" = Some 997%float ∧
  run.1 !! "V_in" = Some (VFloat (1 / 997)) ∧
  run.1 !! "V_in_off" = Some (VFloat (1e-103 / 997)) ∧
  (1e-103 / 997 =? 0)%float = false ∧
  pow_mul (1 / 997 / (1e-103 / 997)) 3 = None ∧
  run.2 = inl OverflowError ∧
  run.1 !! "eta_iP_off" = None.
Proof. repeat split; exact eq_refl. Qed.

(** The powered pump asked for its own design point: the flow ratio is 1 and
    the corrected efficiency is the design efficiency. *)
Lemma C2_correction_at_design_flow_witness :
  (off_design water25 pow_mul 25 100 500 1 pump25_powered).1 !! "V_in_off" =
    Some (VFloat (1 / 997)) ∧
  (off_design water25 pow_mul 25 100 500 1 pump25_powered).1 !! "eta_iP_off" =
    Some (VFloat 0.75).
Proof.
  refine (proj2
    (C2_correction_at_design_flow water25 pow_mul
       0.75 pump25 pump25_powered "Water" (1 / 997)
       25 100 500 1 104920 367.2 105320 298.16 997
       _ _ _ _ _ _ _ _ _ _ _ _ _ _)); exact eq_refl.
Defined.

(** The four coefficients of line 106, in units of 1e-4, sum to one. *)
Example correction_coefficients_sum : (-1680 - 336 + 6317 + 5699 = 10000)%Z.
Proof. reflexivity. Qed.

(** C2 as stated fails: at the design flow the correction factor is not
    1.0180 and the corrected efficiency is not [eta_iP * 1.0180]. *)
Lemma C2_counterexample :
  let σ' := (off_design water25 pow_mul 25 100 500 1 pump25_powered).1 in
  (off_design water25 pow_mul 25 100 500 1 pump25_powered).2 = inr tt ∧
  σ' !! "V_in" = Some (VFloat (1 / 997)) ∧
  σ' !! "V_in_off" = Some (VFloat (1 / 997)) ∧
  σ' !! "eta_iP" = Some (VFloat 0.75) ∧
  σ' !! "eta_iP_off" = Some (VFloat 0.75) ∧
  (0.75 =? 0.75 * 1.0180)%float = false ∧
  (-0.168 * 1 - 0.0336 * 1 + 0.6317 * 1 + 0.5699 =? 1.0180)%float = false.
Proof. repeat split; exact eq_refl. Qed.

Lemma C3_isentropic_identity_witness :
  ∃ s, pump25 !! "s_in" = Some (VFloat s) ∧ pump25 !! "s_out_s" = Some (VFloat s).
Proof.
  apply (C3_isentropic_identity water25 25 100 500 1 "Water" pump25).
  exact eq_refl.
Defined.

Lemma C4_ideal_efficiency_witness :
  ∃ h_in h_out_s,
    (power water25 1 pump25).1 !! "h_in" = Some (VFloat h_in) ∧
    (power water25 1 pump25).1 !! "h_out_s" = Some (VFloat h_out_s) ∧
    (power water25 1 pump25).1 !! "h_out" = Some (VFloat (h_in + (h_out_s - h_in))) ∧
    ((0 <? h_in)%float = true →
     (h_in <=? h_out_s)%float = true →
     (h_out_s - h_in <? h_in)%float = true →
     (power water25 1 pump25).1 !! "h_out" = Some (VFloat h_out_s)).
Proof.
  apply (C4_ideal_efficiency water25 pump25 (power water25 1 pump25).1).
  exact eq_refl.
Defined.

(** At 25 C the inlet enthalpy dwarfs the rise, and the ideal pump does
    reach [h_out_s] exactly. *)
Lemma pump25_ideal :
  (power water25 1 pump25).1 !! "h_out" = (power water25 1 pump25).1 !! "h_out_s".
Proof. exact eq_refl. Qed.

(** C4 as stated fails: water just above freezing, [h_in = 0.2] and
    [h_out_s = 0.9] kJ/kg; [power(1.0)] succeeds and stores
    [h_out = 0.2 + (0.9 - 0.2)/1.0], which is one unit in the last place
    below [0.9]. *)
Lemma C4_counterexample :
  let σ' := (power water0 1 pump0).1 in
  Pump water0 0.05 100 800 1 "Water" = inr pump0 ∧
  (power water0 1 pump0).2 = inr tt ∧
  σ' !! "h_in" = Some (VFloat 0.2) ∧
  σ' !! "h_out_s" = Some (VFloat 0.9) ∧
  σ' !! "h_out" = Some (VFloat 0.8999999999999999) ∧
  (0.8999999999999999 =? 0.9)%float = false.
Proof. repeat split; exact eq_refl. Qed.

Lemma C5_energy_balance_witness :
  ∃ mf h_out h_in,
    pump25_powered !! "mf" = Some (VFloat mf) ∧
    pump25_powered !! "h_out" = Some (VFloat h_out) ∧
    pump25_powered !! "h_in" = Some (VFloat h_in) ∧
    pump25_powered !! "N_iP" = Some (VFloat (mf * (h_out - h_in))).
Proof.
  apply (C5_energy_balance water25 0.75 pump25 pump25_powered).
  exact eq_refl.
Defined.

Lemma C6_power_nonnegative_witness :
  ∃ N_iP, pump25_powered !! "N_iP" = Some (VFloat N_iP) ∧ (0 <=? N_iP)%float = true.
Proof.
  apply (C6_power_nonnegative water25 0.75 pump25 pump25_powered
           (104920 / 1000) (105320 / 1000) 1); exact eq_refl.
Defined.

(** C6 as stated fails: with no pressure rise ([h_out_s = h_in]) and an
    infinite mass flow, every hypothesis of the claim holds, [power(1.0)]
    succeeds and stores [N_iP = inf * 0.0], a NaN, which is not [>= 0]. *)
Lemma C6_counterexample :
  let σ' := (power water_flat 1 pump_inf).1 in
  Pump water_flat 25 100 100 infinity "Water" = inr pump_inf ∧
  pump_inf !! "h_in" = Some (VFloat 104.92) ∧
  pump_inf !! "h_out_s" = Some (VFloat 104.92) ∧
  pump_inf !! "mf" = Some (VFloat infinity) ∧
  (104.92 <=? 104.92)%float = true ∧
  (0 <? infinity)%float = true ∧
  (0 <? 1)%float = true ∧ (1 <=? 1)%float = true ∧
  (power water_flat 1 pump_inf).2 = inr tt ∧
  σ' !! "h_out" = Some (VFloat 104.92) ∧
  σ' !! "N_iP" = Some (VFloat nan) ∧
  (0 <=? nan)%float = false.
Proof. repeat split; exact eq_refl. Qed.

(** The outlet temperature lookup of line 80 fails on the constructed
    pump: [eta_iP] and [h_out] stay assigned, [T_out] is never assigned. *)
Example pump25_failing_outlet_lookup :
  Pump water25_no_outlet 25 100 500 1 "Water" = inr pump25 ∧
  (power water25_no_outlet 0.75 pump25).2 = inl ValueError ∧
  (power water25_no_outlet 0.75 pump25).1 !! "eta_iP" = Some (VFloat 0.75) ∧
  (power water25_no_outlet 0.75 pump25).1 !! "h_out" = Some (VFloat 105.45333333333332) ∧
  (power water25_no_outlet 0.75 pump25).1 !! "T_out" = None.
Proof. repeat split; exact eq_refl. Qed.

Lemma C8_failure_keeps_prefix_witness :
  let σ' := (power water25_no_outlet 0.75 pump25).1 in
  let h_out := (104920 / 1000 + (105320 / 1000 - 104920 / 1000) / 0.75)%float in
  let σ78 := <["eta_iP" := VFloat 0.75]> pump25 in
  let σ79 := <["h_out" := VFloat h_out]> σ78 in
  ((0.75 =? 0)%float = true ∧ ValueError = ZeroDivisionError ∧ σ' = σ78) ∨
  (0.75 =? 0)%float = false ∧
  ((water25_no_outlet "T" "Hmass" (h_out * 1000) "P" (500 * 1000) "Water" = None ∧
    ValueError = ValueError ∧ σ' = σ79) ∨
   ∃ t, water25_no_outlet "T" "Hmass" (h_out * 1000) "P" (500 * 1000) "Water" = Some t ∧
   water25_no_outlet "Smass" "T" (t - 273.15 + 273.15) "P" (500 * 1000) "Water" = None ∧
   ValueError = ValueError ∧ σ' = <["T_out" := VFloat (t - 273.15)]> σ79).
Proof.
  apply (proj1 (proj2 (proj2 (C8_failure_keeps_prefix water25_no_outlet pow_mul)))
           0.75 pump25 (power water25_no_outlet 0.75 pump25).1 ValueError
           (104920 / 1000) (105320 / 1000) 500 "Water" 1)%float; exact eq_refl.
Defined.

(** C8 as stated fails: [power(0)] on the constructed pump raises
    [ZeroDivisionError] at line 79, after line 78 has assigned [eta_iP]; the
    object is neither as before the call nor fully updated. *)
Lemma C8_counterexample :
  let σ' := (power water25 0 pump25).1 in
  Pump water25 25 100 500 1 "Water" = inr pump25 ∧
  (power water25 0 pump25).2 = inl ZeroDivisionError ∧
  pump25 !! "eta_iP" = None ∧
  σ' !! "eta_iP" = Some (VFloat 0) ∧
  σ' !! "h_out" = None ∧
  σ' !! "N_iP" = None.
Proof. repeat split; exact eq_refl. Qed.

(** The freshly constructed pump, asked for an off-design point with twice
    the mass flow: the flow ratio is one half, and the call stops at the read
    of [eta_iP]. *)
Lemma C10_off_design_before_power_witness :
  (off_design water25 pow_mul 25 100 500 2 pump25).2 = inl (AttributeError "eta_iP") ∧
  (off_design water25 pow_mul 25 100 500 2 pump25).1 !! "V_in_off" = Some (VFloat (2 / 997)) ∧
  (off_design water25 pow_mul 25 100 500 2 pump25).1 !! "eta_iP_off" = None.
Proof.
  rewrite (proj1 (proj2
             (C10_off_design_before_power water25 pow_mul
                25 100 500 1 "Water" pump25 (1 / 997) 25 100 500 2 eq_refl eq_refl))
             104920 367.2 105320 298.16 997 0.125 0.25)%float;
    repeat split; exact eq_refl.
Defined.

(** C10 as stated fails: the freshly constructed pump asked for an
    off-design point with no flow raises [ZeroDivisionError] on line 106,
    before [eta_iP] is read; asked for one with a flow of 1e-103 kg/s it
    raises [OverflowError] on that line. *)
Lemma C10_counterexample :
  let run := off_design water25 pow_mul 25 100 500 0 pump25 in
  Pump water25 25 100 500 1 "Water" = inr pump25 ∧
  pump25 !! "eta_iP" = None ∧
  run.2 = inl ZeroDivisionError ∧
  run.1 !! "V_in_off" = Some (VFloat (0 / 997)) ∧
  (0 / 997 =? 0)%float = true ∧
  run.1 !! "eta_iP_off" = None ∧
  (off_design water25 pow_mul 25 100 500 1e-103 pump25).2 = inl OverflowError.
Proof. repeat split; exact eq_refl. Qed.

(** ** The further properties at concrete pumps *)

(** The powered pump of the first scenario, asked for the off-design point
    at twice the mass flow, and the object that call leaves. *)
Example pump25_off_design :
  (off_design water25 pow_mul 25 100 500 2 pump25_powered).2 = inr tt ∧
  (off_design water25 pow_mul 25 100 500 2 pump25_powered).1 !! "V_in_off" =
    Some (VFloat (2 / 997)) ∧
  (off_design water25 pow_mul 25 100 500 2 pump25_powered).1 !! "eta_iP_off" =
    Some (VFloat ((-0.168 * 0.125 - 0.0336 * 0.25 + 0.6317 * 0.5 + 0.5699) * 0.75)).
Proof. repeat split; exact eq_refl. Qed.

(** A backend that answers a zero density: the construction raises
    [ZeroDivisionError], the second of the two cases. *)
Lemma X2_Pump_errors_witness :
  (ZeroDivisionError = ValueError ∧
   ∃ out n1 v1 v2, water_void out n1 v1 "P" v2 "Water" = None) ∨
  (ZeroDivisionError = ZeroDivisionError ∧
   ∃ h rho,
     water_void "Hmass" "T" (25 + 273.15) "P" (100 * 1000) "Water" = Some h ∧
     water_void "Dmass" "Hmass" (h / 1000 * 1000) "P" (100 * 1000) "Water" = Some rho ∧
     (rho =? 0)%float = true).
Proof.
  apply (X2_Pump_errors water_void 25 100 500 1 "Water" ZeroDivisionError).
  exact eq_refl.
Defined.

Lemma X3_power_outcomes_witness :
  ((power water25 0 pump25).2 = inl ZeroDivisionError ↔ (0 =? 0)%float = true) ∧
  ((0 =? 0)%float = true →
   (power water25 0 pump25).1 = <["eta_iP" := VFloat 0]> pump25) ∧
  ((power water25 0 pump25).2 = inr tt ∨
   (power water25 0 pump25).2 = inl ZeroDivisionError ∨
   (power water25 0 pump25).2 = inl ValueError).
Proof.
  apply (X3_power_outcomes water25 0 pump25
           (104920 / 1000) (105320 / 1000) 500 "Water" 1); exact eq_refl.
Defined.

Lemma X4_power_outlet_state_witness :
  power water25 0.75 pump25 = (pump25_powered, inr tt) ↔
  (0.75 =? 0)%float = false ∧
  ∃ t s,
    water25 "T" "Hmass"
      ((104920 / 1000 + (105320 / 1000 - 104920 / 1000) / 0.75) * 1000)
      "P" (500 * 1000) "Water" = Some t ∧
    water25 "Smass" "T" (t - 273.15 + 273.15) "P" (500 * 1000) "Water" = Some s ∧
    pump25_powered =
      <["N_iP" := VFloat (1 * (104920 / 1000 + (105320 / 1000 - 104920 / 1000) / 0.75
                               - 104920 / 1000))]>
        (<["s_out" := VFloat (s / 1000)]>
           (<["T_out" := VFloat (t - 273.15)]>
              (<["h_out" := VFloat (104920 / 1000
                                    + (105320 / 1000 - 104920 / 1000) / 0.75)]>
                 (<["eta_iP" := VFloat 0.75]> pump25)))).
Proof.
  apply (X4_power_outlet_state water25 0.75 pump25 pump25_powered
           (104920 / 1000) (105320 / 1000) 500 "Water" 1); exact eq_refl.
Defined.

(** Overwriting [T_in] on the constructed pump changes nothing of what
    [power] does: it works from the stored [h_in]. *)
Lemma X5_power_reads_witness :
  (power water25 0.75 (<["T_in" := VFloat 80]> pump25)).2 =
    (power water25 0.75 pump25).2 ∧
  ((power water25 0.75 (<["T_in" := VFloat 80]> pump25)).2 = inr tt →
   agree_on power_attrs
     (power water25 0.75 (<["T_in" := VFloat 80]> pump25)).1
     (power water25 0.75 pump25).1).
Proof.
  apply (X5_power_reads water25 0.75 (<["T_in" := VFloat 80]> pump25) pump25).
  intros name Hn. unfold power_inputs in Hn.
  repeat (apply elem_of_cons in Hn as [->|Hn]; [exact eq_refl|]).
  by apply elem_of_nil in Hn.
Defined.

(** [power(0)] fails on the constructed pump; [power(0.75)] after it
    leaves the object it leaves on the constructed pump itself. *)
Lemma X6_power_last_call_wins_witness :
  power water25 0.75 (power water25 0 pump25).1 = (pump25_powered, inr tt).
Proof.
  apply (X6_power_last_call_wins water25 0 0.75 pump25 pump25_powered).
  exact eq_refl.
Defined.

Lemma X7_power_enthalpy_rise_witness :
  ∃ h_out N_iP,
    (power water25 1.25 pump25).1 !! "h_out" = Some (VFloat h_out) ∧
    (104920 / 1000 <=? h_out)%float = true ∧
    (power water25 1.25 pump25).1 !! "N_iP" = Some (VFloat N_iP) ∧
    (0 <=? N_iP)%float = true.
Proof.
  apply (X7_power_enthalpy_rise water25 1.25 pump25 (power water25 1.25 pump25).1
           (104920 / 1000) (105320 / 1000) 1); exact eq_refl.
Defined.

Lemma X8_off_design_point_witness :
  let σ' := (off_design water25 pow_mul 25 100 500 2 pump25_powered).1 in
  off_design water25 pow_mul 25 100 500 2 pump25_powered = (σ', inr tt) ↔
  ∃ h s h_s t_s rho r3 r2 t s_o,
    water25 "Hmass" "T" (25 + 273.15) "P" (100 * 1000) "Water" = Some h ∧
    water25 "Smass" "T" (25 + 273.15) "P" (100 * 1000) "Water" = Some s ∧
    water25 "Hmass" "Smass" (s / 1000 * 1000) "P" (500 * 1000) "Water" = Some h_s ∧
    water25 "T" "Smass" (s / 1000 * 1000) "P" (500 * 1000) "Water" = Some t_s ∧
    water25 "Dmass" "Hmass" (h / 1000 * 1000) "P" (100 * 1000) "Water" = Some rho ∧
    (rho =? 0)%float = false ∧
    (2 / rho =? 0)%float = false ∧
    pow_mul (1 / 997 / (2 / rho)) 3 = Some r3 ∧
    pow_mul (1 / 997 / (2 / rho)) 2 = Some r2 ∧
    let eta_off :=
      ((-0.168 * r3 - 0.0336 * r2 + 0.6317 * (1 / 997 / (2 / rho)) + 0.5699)
       * 0.75)%float in
    let h_out := (h / 1000 + (h_s / 1000 - h / 1000) / eta_off)%float in
    (eta_off =? 0)%float = false ∧
    water25 "T" "Hmass" (h_out * 1000) "P" (500 * 1000) "Water" = Some t ∧
    water25 "Smass" "T" (t - 273.15 + 273.15) "P" (500 * 1000) "Water" = Some s_o ∧
    σ' = <["N_iP_off" := VFloat (2 * (h_out - h / 1000))]>
        (<["s_out_off" := VFloat (s_o / 1000)]>
        (<["T_out_off" := VFloat (t - 273.15)]>
        (<["h_out_off" := VFloat h_out]>
        (<["eta_iP_off" := VFloat eta_off]>
        (<["V_in_off" := VFloat (2 / rho)]>
        (<["rho_in_off" := VFloat rho]>
        (<["T_out_s_off" := VFloat (t_s - 273.15)]>
        (<["h_out_s_off" := VFloat (h_s / 1000)]>
        (<["s_out_s_off" := VFloat (s / 1000)]>
        (<["s_in_off" := VFloat (s / 1000)]>
        (<["h_in_off" := VFloat (h / 1000)]>
        (<["mf_off" := VFloat 2]>
        (<["p_out_off" := VFloat 500]>
        (<["p_in_off" := VFloat 100]>
        (<["T_in_off" := VFloat 25]> pump25_powered))))))))))))))).
Proof.
  apply (X8_off_design_point water25 pow_mul 25 100 500 2 pump25_powered
           (off_design water25 pow_mul 25 100 500 2 pump25_powered).1
           "Water" (1 / 997) 0.75); exact eq_refl.
Defined.

Lemma X9_off_design_outcomes_witness :
  (off_design water25 pow_mul 25 100 500 2 pump25_powered).2 = inr tt ∨
  (off_design water25 pow_mul 25 100 500 2 pump25_powered).2 = inl ValueError ∨
  (off_design water25 pow_mul 25 100 500 2 pump25_powered).2 = inl ZeroDivisionError ∨
  (off_design water25 pow_mul 25 100 500 2 pump25_powered).2 = inl OverflowError.
Proof.
  apply (X9_off_design_outcomes water25 pow_mul 25 100 500 2 pump25_powered
           "Water" (1 / 997) 0.75); exact eq_refl.
Defined.

Lemma X10_off_design_requires_witness :
  ∃ medium V_in eta_iP,
    pump25_powered !! "medium" = Some (VStr medium) ∧
    pump25_powered !! "V_in" = Some (VFloat V_in) ∧
    pump25_powered !! "eta_iP" = Some (VFloat eta_iP).
Proof.
  apply (X10_off_design_requires water25 pow_mul 25 100 500 2 pump25_powered
           (off_design water25 pow_mul 25 100 500 2 pump25_powered).1).
  exact eq_refl.
Defined.

(** Overwriting [p_out] on the powered pump changes nothing of what
    [off_design] does. *)
Lemma X11_off_design_reads_witness :
  (off_design water25 pow_mul 25 100 500 2 (<["p_out" := VFloat 900]> pump25_powered)).2 =
    (off_design water25 pow_mul 25 100 500 2 pump25_powered).2 ∧
  ((off_design water25 pow_mul 25 100 500 2
      (<["p_out" := VFloat 900]> pump25_powered)).2 = inr tt →
   agree_on off_design_attrs
     (off_design water25 pow_mul 25 100 500 2
        (<["p_out" := VFloat 900]> pump25_powered)).1
     (off_design water25 pow_mul 25 100 500 2 pump25_powered).1).
Proof.
  apply (X11_off_design_reads water25 pow_mul 25 100 500 2
           (<["p_out" := VFloat 900]> pump25_powered) pump25_powered).
  intros name Hn. unfold off_design_inputs in Hn.
  repeat (apply elem_of_cons in Hn as [->|Hn]; [exact eq_refl|]).
  by apply elem_of_nil in Hn.
Defined.

(** An off-design call with a zero mass flow fails; the call with twice
    the design flow after it leaves the object it leaves on the powered
    pump itself. *)
Lemma X13_off_design_last_call_wins_witness :
  off_design water25 pow_mul 25 100 500 2
    (off_design water25 pow_mul 25 100 500 0 pump25_powered).1 =
  ((off_design water25 pow_mul 25 100 500 2 pump25_powered).1, inr tt).
Proof.
  apply (X13_off_design_last_call_wins water25 pow_mul 25 100 500 0 25 100 500 2
           pump25_powered (off_design water25 pow_mul 25 100 500 2 pump25_powered).1).
  exact eq_refl.
Defined.

(** The constructed pump, on which [power] never ran, asked for an
    off-design point with no flow. *)
Lemma X14_off_design_zero_flow_witness :
  (off_design water25 pow_mul 25 100 500 0 pump25).2 = inl ZeroDivisionError ∧
  (off_design water25 pow_mul 25 100 500 0 pump25).1 !! "V_in_off" =
    Some (VFloat (0 / 997)) ∧
  (off_design water25 pow_mul 25 100 500 0 pump25).1 !! "eta_iP_off" =
    pump25 !! "eta_iP_off".
Proof.
  apply (X14_off_design_zero_flow water25 pow_mul pump25 "Water" (1 / 997)
           25 100 500 0 104920 367.2 105320 298.16 997); exact eq_refl.
Defined.

Lemma X15_off_design_power_nonnegative_witness :
  let σ' := (off_design water25 pow_mul 25 100 500 2 pump25_powered).1 in
  ∃ h_out_off N_iP_off,
    σ' !! "h_out_off" = Some (VFloat h_out_off) ∧
    (104920 / 1000 <=? h_out_off)%float = true ∧
    σ' !! "N_iP_off" = Some (VFloat N_iP_off) ∧
    (0 <=? N_iP_off)%float = true.
Proof.
  apply (X15_off_design_power_nonnegative water25 pow_mul 25 100 500 2 pump25_powered
           (off_design water25 pow_mul 25 100 500 2 pump25_powered).1
           (104920 / 1000) (105320 / 1000)
           ((-0.168 * 0.125 - 0.0336 * 0.25 + 0.6317 * 0.5 + 0.5699) * 0.75));
    exact eq_refl.
Defined.

(** [power(0)] on the constructed pump, then [off_design]: the division
    of line 108 raises. *)
Lemma X17_off_design_after_failed_power_witness :
  let run := off_design water25 pow_mul 25 100 500 2 (power water25 0 pump25).1 in
  run.2 = inl ZeroDivisionError ∧
  run.1 !! "eta_iP_off" =
    Some (VFloat ((-0.168 * 0.125 - 0.0336 * 0.25
                   + 0.6317 * (1 / 997 / (2 / 997)) + 0.5699) * 0)) ∧
  ((-0.168 * 0.125 - 0.0336 * 0.25 + 0.6317 * (1 / 997 / (2 / 997)) + 0.5699) * 0
   =? 0)%float = true ∧
  run.1 !! "h_out_off" = (power water25 0 pump25).1 !! "h_out_off".
Proof.
  apply (X17_off_design_after_failed_power water25 pow_mul
           0 pump25 (power water25 0 pump25).1 "Water" (1 / 997)
           25 100 500 2 104920 367.2 105320 298.16 997 0.125 0.25); exact eq_refl.
Defined.

(** The powered pump of the first scenario at its own design point. *)
Lemma X18_off_design_at_design_point_witness :
  ∃ σ'',
    off_design water25 pow_mul 25 100 500 1 pump25_powered = (σ'', inr tt) ∧
    ∀ name, name ∈ design_attrs → name ≠ "medium" →
      σ'' !! (name +:+ "_off") = σ'' !! name.
Proof.
  apply (X18_off_design_at_design_point water25 pow_mul
           25 100 500 1 "Water" 0.75 pump25 pump25_powered (1 / 997)); exact eq_refl.
Defined.
